(** * Telecom intelligence platform: report pipeline client and views

    A shallow embedding of the TypeScript sources of the reports UI
    (API client, reports page, report detail page, reports table,
    tips-and-alerts panel), of the streaming chat store, and of the
    pipeline orchestrator as the specification describes it, followed by
    the properties proved about them.

    Conventions.  A JavaScript [number] that the code uses as a count, an
    index or a level is an integer [Z]; [null] and [undefined] are [None];
    a [string] is the [string] of its UTF-8 bytes (where the code counts or
    cuts a text that a user typed, the UTF-16 code units it holds are
    counted); arrays are lists.  Where the source calls a
    function of the platform whose result depends on the locale or on the
    clock, the function or the instant is a parameter of the definition. *)

From Stdlib Require Import ZArith Lia Ascii String List.
From Stdlib Require DecimalString DecimalZ DecimalPos.
From stdpp Require Import gmap strings list fin_maps pretty.

Local Open Scope string_scope.
Local Open Scope Z_scope.

(** ** JavaScript helpers used by several components *)

Module Js.

(** Numbers that [Math.ceil (a / b)] can produce from integer operands. *)
Inductive number : Type :=
| Int (z : Z)
| Infinity
| NaN.

(** [a / b] followed by [Math.ceil], for integers [a >= 0] and [b].
    [Z.div] rounds towards minus infinity, so the ceiling of the exact
    quotient is [- ((- a) / b)]. *)
Definition ceil_div (a b : Z) : number :=
  if b =? 0 then (if a =? 0 then NaN else Infinity)
  else Int (- ((- a) / b)).

(** Relative index resolution of [Array.prototype.slice]: a negative
    index counts from the end, and everything is clamped to [0, len]. *)
Definition relative_index (len k : Z) : Z :=
  if k <? 0 then Z.max (len + k) 0 else Z.min k len.

(** [l.slice (start, end)]. *)
Definition slice {A : Type} (l : list A) (start end_ : Z) : list A :=
  let len := Z.of_nat (length l) in
  let k := relative_index len start in
  let final := relative_index len end_ in
  let count := Z.max (final - k) 0 in
  take (Z.to_nat count) (drop (Z.to_nat k) l).

(** [x > 0] for a value that is a number or [null]/[undefined]:
    [null > 0] and [undefined > 0] are both [false]. *)
Definition gt_zero (x : option Z) : bool :=
  match x with
  | Some n => 0 <? n
  | None => false
  end.

(** Template-literal interpolation of a number that may be [null]. *)
Definition show (x : option Z) : string :=
  match x with
  | Some n => pretty n
  | None => "null"
  end.

(** [a + b] on numbers that may be [null] ([null] converts to 0). *)
Definition add (x y : option Z) : Z :=
  default 0 x + default 0 y.

(** [xs.join (sep)]. *)
Fixpoint join (sep : string) (xs : list string) : string :=
  match xs with
  | [] => EmptyString
  | [x] => x
  | x :: rest => (x ++ sep ++ join sep rest)%string
  end.

(** [s.split (c)] for a one-character separator: never the empty list,
    and a trailing separator yields a trailing empty piece. *)
Fixpoint split (c : ascii) (s : string) : list string :=
  match s with
  | EmptyString => [EmptyString]
  | String a rest =>
      if Ascii.eqb a c then EmptyString :: split c rest
      else match split c rest with
           | piece :: pieces => String a piece :: pieces
           | [] => [String a EmptyString]
           end
  end.

(** [s.startsWith (p)]. *)
Fixpoint startsWith (p s : string) : bool :=
  match p, s with
  | EmptyString, _ => true
  | String a p', String b s' => Ascii.eqb a b && startsWith p' s'
  | String _ _, EmptyString => false
  end.

(** [s.slice (n)] for [n >= 0]: drops the first [n] characters. *)
Fixpoint slice_from (n : nat) (s : string) : string :=
  match n, s with
  | O, _ => s
  | S n', String _ s' => slice_from n' s'
  | S _, EmptyString => EmptyString
  end.

End Js.

(** ** Tips and alerts panel ([TipsAlerts]) *)

Module TipsAlerts.

Record Alert : Type := {
  alert : string;
  alert_level : Z
}.

Record TipsAlertsData : Type := {
  generated_at : string;
  tips : list string;
  alerts : list Alert;
  status : string
}.

(** The [tipsAlerts] prop is optional and the detail page initialises
    it with the empty object. *)
Inductive TipsAlertsProp : Type :=
| prop_undefined
| prop_empty_object
| prop_data (d : TipsAlertsData).

(** The detail page keeps the [tips_alerts] of the endpoint's answer
    in its state when the field is truthy (the state starts as the
    empty object) and passes the state to the panel. *)
Definition fetchReport_tipsAlerts (tips_alerts : TipsAlertsProp) : TipsAlertsProp :=
  match tips_alerts with
  | prop_undefined => prop_empty_object
  | kept => kept
  end.

Definition placeholder (now : string) : TipsAlertsData := {|
  generated_at := now;
  tips := ["No tips available - the tips and alerts data could not be loaded from storage."];
  alerts := [ {| alert := "No alerts available - the tips and alerts data could not be loaded from storage.";
                 alert_level := 1 |} ];
  status := "error"
|}.

(** [loadTipsAlerts]: the value given to [setTipsAlertsData]; [now] is
    [new Date ().toISOString ()].  The test
    [tipsAlerts && Object.keys (tipsAlerts).length > 0] succeeds for the
    data of the endpoint and fails for [undefined] and for the empty
    object. *)
Definition loadTipsAlerts (now : string) (tipsAlerts : TipsAlertsProp) : TipsAlertsData :=
  match tipsAlerts with
  | prop_data d => d
  | prop_undefined | prop_empty_object => placeholder now
  end.

Definition getAlertLevelColor (level : Z) : string :=
  if 5 <=? level then "bg-red-100 text-red-800 border-red-200 dark:bg-red-900/30 dark:text-red-400 dark:border-red-800"
  else if 4 <=? level then "bg-orange-100 text-orange-800 border-orange-200 dark:bg-orange-900/30 dark:text-orange-400 dark:border-orange-800"
  else if 3 <=? level then "bg-yellow-100 text-yellow-800 border-yellow-200 dark:bg-yellow-900/30 dark:text-yellow-400 dark:border-yellow-800"
  else "bg-blue-100 text-blue-800 border-blue-200 dark:bg-blue-900/30 dark:text-blue-400 dark:border-blue-800".

Definition getAlertLevelText (level : Z) : string :=
  if 5 <=? level then "Critical"
  else if 4 <=? level then "High"
  else if 3 <=? level then "Medium"
  else "Low".

(** One card of the "tips" tab: the number after "Strategic Tip #" and
    the text of the tip. *)
Record TipCard : Type := {
  tip_number : Z;
  tip_text : string
}.

(** One card of the "alerts" tab. *)
Record AlertCard : Type := {
  alert_number : Z;
  badge_class : string;
  badge_text : string;
  badge_level : Z;
  alert_text : string
}.

(** [tipsAlertsData.tips.map ((tip, index) => ...)] *)
Definition renderTips (data : TipsAlertsData) : list TipCard :=
  imap (fun index tip => {| tip_number := Z.of_nat index + 1; tip_text := tip |})
       (tips data).

(** [tipsAlertsData.alerts.map ((alert, index) => ...)] *)
Definition renderAlerts (data : TipsAlertsData) : list AlertCard :=
  imap (fun index a =>
          {| alert_number := Z.of_nat index + 1;
             badge_class := getAlertLevelColor (alert_level a);
             badge_text := getAlertLevelText (alert_level a);
             badge_level := alert_level a;
             alert_text := alert a |})
       (alerts data).

(** The severity scale the four badge texts stand for. *)
Inductive Severity : Type := Low | Medium | High | Critical.

Definition severity_rank (s : Severity) : nat :=
  match s with
  | Low => 0
  | Medium => 1
  | High => 2
  | Critical => 3
  end.

Definition severity_of_text (t : string) : option Severity :=
  if String.eqb t "Low" then Some Low
  else if String.eqb t "Medium" then Some Medium
  else if String.eqb t "High" then Some High
  else if String.eqb t "Critical" then Some Critical
  else None.

End TipsAlerts.

(** ** Reports list and report detail pages *)

Module Reports.

(** The impact levels of [Report] and [ReportDetail] in [lib/types]. *)
Inductive ImpactLevel : Type := Low | Medium | High | Critical.

(** A row of the [reports] table as the list and detail endpoints
    return it.  The counters are nullable integer columns, and
    [report_domains] is [None] when the field is not an array. *)
Record ApiReport : Type := {
  report_id : string;
  user_email : string;
  report_date : string;
  report_status : string;
  report_domains : option (list string);
  report_alerts : option Z;
  report_tips : option Z;
  report_alerts_tips_json_path : option string;
  path_to_report : option string;
  created_at : string
}.

Record Impact : Type := {
  level : ImpactLevel;
  description : string
}.

Record Report : Type := {
  id : string;
  title : string;
  status : string;
  createdAt : string;
  hasDiff : bool;
  category : string;
  impact : Impact;
  date : string;
  summary : string;
  r_user_email : string;
  r_path_to_report : option string;
  r_report_alerts_tips_json_path : option string
}.

Record DetailImpact : Type := {
  d_level : ImpactLevel;
  d_description : string;
  score : Z
}.

Record ReportDetail : Type := {
  d_id : string;
  d_title : string;
  d_category : string;
  d_impact : DetailImpact;
  d_createdAt : string;
  d_summary : string;
  body : string;
  entities : list string;
  d_hasDiff : bool
}.

Section Conversion.

(** [new Date (d).toLocaleDateString ()], which depends on the locale
    of the browser. *)
Variable toLocaleDateString : string -> string.

(** The object built for each element of [apiReports] in
    [fetchReports] (reports page). *)
Definition convertReport (report : ApiReport) : Report := {|
  id := report_id report;
  title := "Report " ++ toLocaleDateString (report_date report);
  status := report_status report;
  createdAt := created_at report;
  hasDiff := false;
  category := match report_domains report with
              | Some domains => Js.join ", " domains
              | None => "Mixed"
              end;
  impact := {|
    level := if Js.gt_zero (report_alerts report) then High else Medium;
    description := Js.show (report_tips report) ++ " tips, "
                   ++ Js.show (report_alerts report) ++ " alerts"
  |};
  date := report_date report;
  summary := "Generated report with " ++ Js.show (report_tips report)
             ++ " tips and " ++ Js.show (report_alerts report) ++ " alerts";
  r_user_email := user_email report;
  r_path_to_report := path_to_report report;
  r_report_alerts_tips_json_path := report_alerts_tips_json_path report
|}%string.

Definition convertedReports (apiReports : list ApiReport) : list Report :=
  map convertReport apiReports.

(** [apiReport.report_domains?.join (', ')] inside a template. *)
Definition joined_domains (apiReport : ApiReport) : option string :=
  Js.join ", " <$> report_domains apiReport.

(** [x || 'Mixed'] on an optional string: the empty string is falsy. *)
Definition or_mixed (x : option string) : string :=
  match x with
  | Some s => if String.eqb s EmptyString then "Mixed" else s
  | None => "Mixed"
  end.

(** The [convertedReport] of [fetchReport] (report detail page). *)
Definition convertReportDetail (apiReport : ApiReport) : ReportDetail := {|
  d_id := report_id apiReport;
  d_title := "Report " ++ toLocaleDateString (report_date apiReport);
  d_category := or_mixed (joined_domains apiReport);
  d_impact := {|
    d_level := if Js.gt_zero (report_alerts apiReport) then High else Medium;
    d_description := Js.show (report_tips apiReport) ++ " tips, "
                     ++ Js.show (report_alerts apiReport) ++ " alerts";
    score := Js.add (report_alerts apiReport) (report_tips apiReport)
  |};
  d_createdAt := created_at apiReport;
  d_summary := "Generated report with " ++ Js.show (report_tips apiReport)
               ++ " tips and " ++ Js.show (report_alerts apiReport) ++ " alerts";
  body := "This report contains analysis across "
          ++ default "undefined" (joined_domains apiReport)
          ++ " domains with " ++ Js.show (report_tips apiReport)
          ++ " actionable tips and " ++ Js.show (report_alerts apiReport)
          ++ " alerts for business decision-making.";
  entities := default [] (report_domains apiReport);
  d_hasDiff := false
|}%string.

End Conversion.

(** What [ReportsTable] returns: the loading skeleton, the "no reports"
    card, or the table with its rows and its "Page p of n" footer. *)
Inductive View : Type :=
| Skeleton
| NoReportsFound
| Table (rows : list Report) (shown_page : Z) (totalPages : Js.number).

Definition paginatedReports (reports : list Report) (page pageSize : Z) : list Report :=
  Js.slice reports ((page - 1) * pageSize) (page * pageSize).

Definition totalPages (reports : list Report) (pageSize : Z) : Js.number :=
  Js.ceil_div (Z.of_nat (length reports)) pageSize.

Definition ReportsTable (reports : list Report) (isLoading : bool)
           (page pageSize : Z) : View :=
  if isLoading then Skeleton
  else if Z.of_nat (length reports) =? 0 then NoReportsFound
  else Table (paginatedReports reports page pageSize) page
             (totalPages reports pageSize).

(** The rows a view shows. *)
Definition rows_of (v : View) : list Report :=
  match v with
  | Table rows _ _ => rows
  | _ => []
  end.

(** The pages 1, 2, ..., n. *)
Definition page_numbers (n : nat) : list Z :=
  map (fun i => Z.of_nat i + 1) (seq 0 n).

End Reports.

(** ** Chat store: the streaming consumer of [sendStreamingMessage] *)

Module AgentStore.

Inductive Role : Type := user | assistant.

Record Message : Type := {
  msg_id : string;
  content : string;
  role : Role
}.

Record ConversationThread : Type := {
  thread_id : string;
  title : string;
  messages : list Message
}.

Record AgentState : Type := {
  currentThread : option ConversationThread;
  threads : list ConversationThread;
  isLoading : bool;
  error : option string
}.

(** What [fetch] and the body reader deliver: the call rejects, or it
    answers with a status and, when [response.body] is present, the
    decoded texts of the successive [reader.read ()] results up to
    [done]. *)
Inductive FetchResult : Type :=
| Rejected (message : string)
| Response (ok : bool) (http_status : Z) (reads : option (list string)).

Definition newline : ascii := Ascii.ascii_of_nat 10.

Definition createNewThread (now : Z) (state : AgentState) : AgentState :=
  let newThread := {| thread_id := "thread_" ++ pretty now;
                      title := "Nowa rozmowa";
                      messages := [] |}%string in
  {| currentThread := Some newThread;
     threads := newThread :: threads state;
     isLoading := isLoading state;
     error := error state |}.

(** The [set] that follows [accumulatedContent += data]: the messages
    of the current thread with the assistant's id get the accumulated
    content, and the thread replaces its copy in [threads].  [None]
    stands for the [TypeError] of [state.currentThread!] on [null]. *)
Definition updateAssistant (assistantId accumulatedContent : string)
           (state : AgentState) : option AgentState :=
  match currentThread state with
  | None => None
  | Some thread =>
      let updatedMessages :=
        map (fun msg => if String.eqb (msg_id msg) assistantId
                        then {| msg_id := msg_id msg;
                                content := accumulatedContent;
                                role := role msg |}
                        else msg)
            (messages thread) in
      let updatedThread := {| thread_id := thread_id thread;
                              title := title thread;
                              messages := updatedMessages |} in
      Some {| currentThread := Some updatedThread;
              threads := map (fun t => if String.eqb (thread_id t) (thread_id updatedThread)
                                       then updatedThread else t)
                             (threads state);
              isLoading := isLoading state;
              error := error state |}
  end.

(** How the body of the [for] loop over the lines of one read, or the
    whole [while] loop, is left. *)
Inductive Exit : Type :=
| Next      (* the lines are exhausted: go on with the next read *)
| Returned  (* [return] after a [DONE] frame *)
| Threw.    (* an exception reached the [catch] block *)

Definition stopLoading (state : AgentState) : AgentState :=
  {| currentThread := currentThread state;
     threads := threads state;
     isLoading := false;
     error := error state |}.

(** [for (const line of lines) { ... }] *)
Fixpoint processLines (assistantId : string) (lines : list string)
         (accumulatedContent : string) (state : AgentState)
  : Exit * string * AgentState :=
  match lines with
  | [] => (Next, accumulatedContent, state)
  | line :: rest =>
      if Js.startsWith "data: " line then
        let data := Js.slice_from 6 line in
        if String.eqb data "[DONE]" then
          (Returned, accumulatedContent, stopLoading state)
        else
          let accumulatedContent' := (accumulatedContent ++ data)%string in
          match updateAssistant assistantId accumulatedContent' state with
          | Some state' => processLines assistantId rest accumulatedContent' state'
          | None => (Threw, accumulatedContent', state)
          end
      else processLines assistantId rest accumulatedContent state
  end.

(** [while (true) { read; if (done) break; split; for ... }] over the
    reads the body delivers before [done]. *)
Fixpoint processReads (assistantId : string) (reads : list string)
         (accumulatedContent : string) (state : AgentState)
  : Exit * string * AgentState :=
  match reads with
  | [] => (Next, accumulatedContent, state)
  | chunk :: later =>
      match processLines assistantId (Js.split newline chunk)
                         accumulatedContent state with
      | (Next, accumulatedContent', state') =>
          processReads assistantId later accumulatedContent' state'
      | stopped => stopped
      end
  end.

Definition fail (message : string) (state : AgentState) : AgentState :=
  {| currentThread := currentThread state;
     threads := threads state;
     isLoading := false;
     error := Some message |}.

(** The message of the [TypeError] that reading [messages] of [null]
    raises (the wording is the engine's). *)
Definition null_access_message : string :=
  "Cannot read properties of null (reading 'messages')".

(** [sendStreamingMessage (content)]: [now] is the value of
    [Date.now ()], and [response] what the request to [/agent/stream]
    delivers.  The result is the final state of the store together
    with the final value of [accumulatedContent] and the way the read
    loop was left, for the runs that reach the loop.  The run is taken
    on its own: no other action of the store changes the state between
    two reads. *)
Definition sendStreamingMessage (now : Z) (response : FetchResult)
           (text : string) (state0 : AgentState)
  : AgentState * option (Exit * string) :=
  let state1 := match currentThread state0 with
                | None => createNewThread now state0
                | Some _ => state0
                end in
  match currentThread state1 with
  | None => (state1, None)
  | Some thread =>
      let userMessage := {| msg_id := "msg_" ++ pretty now;
                            content := text;
                            role := user |}%string in
      let assistantMessage := {| msg_id := "msg_" ++ pretty now ++ "_assistant";
                                 content := EmptyString;
                                 role := assistant |}%string in
      let state2 := {| currentThread :=
                         Some {| thread_id := thread_id thread;
                                 title := title thread;
                                 messages := messages thread
                                               ++ [userMessage; assistantMessage] |};
                       threads := threads state1;
                       isLoading := true;
                       error := None |} in
      match response with
      | Rejected message => (fail message state2, None)
      | Response false http_status _ =>
          (fail ("HTTP error! status: " ++ pretty http_status)%string state2, None)
      | Response true _ None => (state2, None)
      | Response true _ (Some reads) =>
          match processReads (msg_id assistantMessage) reads EmptyString state2 with
          | (Threw, acc, state3) =>
              (fail null_access_message state3, Some (Threw, acc))
          | (exit, acc, state3) => (state3, Some (exit, acc))
          end
      end
  end.

(** *** The frames of a body, as the consumer sees them *)

(** All lines of all reads, in arrival order. *)
Definition lines_of (reads : list string) : list string :=
  flat_map (Js.split newline) reads.

(** The payloads of the lines that are frames. *)
Definition payloads (lines : list string) : list string :=
  map (Js.slice_from 6) (filter (fun line => Js.startsWith "data: " line = true) lines).

(** The payloads that precede the first [DONE] payload. *)
Fixpoint before_done (ps : list string) : list string :=
  match ps with
  | [] => []
  | p :: rest => if String.eqb p "[DONE]" then [] else p :: before_done rest
  end.

Definition has_done (ps : list string) : bool :=
  existsb (fun p => String.eqb p "[DONE]") ps.

Definition concat_all (ps : list string) : string :=
  fold_right String.append EmptyString ps.

(** The wire form of a frame: the payload after the field name, and
    the blank line that ends the event. *)
Definition frame (payload : string) : string :=
  ("data: " ++ payload ++ String newline (String newline EmptyString))%string.

(** A read that carries whole frames. *)
Definition read_of (frames : list string) : string :=
  concat_all (map frame frames).

(** Whether the character [c] occurs in [s]. *)
Fixpoint occurs (c : ascii) (s : string) : bool :=
  match s with
  | EmptyString => false
  | String a rest => Ascii.eqb a c || occurs c rest
  end.

(** The invariant of the read loop: the assistant's placeholder is the
    last message of the current thread and holds the accumulated
    content. *)
Definition assistant_last (assistantId acc : string) (state : AgentState) : Prop :=
  exists thread earlier m,
    currentThread state = Some thread
    /\ messages thread = (earlier ++ [m])%list
    /\ msg_id m = assistantId
    /\ content m = acc.

(** The content of the last message of the current thread. *)
Definition last_message (state : AgentState) : option Message :=
  match currentThread state with
  | Some thread => last (messages thread)
  | None => None
  end.

End AgentStore.

(** ** API client ([lib/api]): [runPipeline] *)

Module Api.

(** A parsed JSON value.  An object is the list of its own properties,
    each key once, in insertion order. *)
#[warnings="-register-all"]
Inductive json : Type :=
| JNull
| JBool (b : bool)
| JNumber (n : Z)
| JString (s : string)
| JArray (items : list json)
| JObject (fields : list (string * json)).

(** Property access [value.key]; [None] is [undefined]. *)
Fixpoint assoc (key : string) (fields : list (string * json)) : option json :=
  match fields with
  | [] => None
  | (k, v) :: rest => if String.eqb k key then Some v else assoc key rest
  end.

Definition get (key : string) (value : json) : option json :=
  match value with
  | JObject fields => assoc key fields
  | _ => None
  end.

(** Truthiness, as [||] tests it. *)
Definition truthy (value : json) : bool :=
  match value with
  | JNull => false
  | JBool b => b
  | JNumber n => negb (n =? 0)
  | JString s => negb (String.eqb s EmptyString)
  | JArray _ | JObject _ => true
  end.

(** *** The request and the call *)

Record Request : Type := {
  method : string;
  path : string;
  params : list (string * string);
  headers : list (string * string)
}.

(** A [fetch] response: [parsed] is what [response.json ()] resolves
    to, [None] when the body is not JSON and the promise rejects. *)
Record Response : Type := {
  ok : bool;
  http_status : Z;
  parsed : option json
}.

(** The error a rejected call carries. *)
Inductive Error : Type :=
| Detail (detail : json)          (* [new Error (errorData.detail)] *)
| HttpError (message : string)    (* [HTTP error! status: ...] *)
| SyntaxError                     (* [response.json ()] rejected *)
| TypeError.                      (* [errorData.detail] on [null] *)

Definition runPipeline_request (userEmail : string) : Request := {|
  method := "POST";
  path := "/pipeline/run";
  params := [("user_email", userEmail); ("domains", "prawo,polityka,financial")];
  headers := [("Content-Type", "application/json")]
|}.

(** [params.get (key)] on the query of a request. *)
Fixpoint param (key : string) (query : list (string * string)) : option string :=
  match query with
  | [] => None
  | (k, v) :: rest => if String.eqb k key then Some v else param key rest
  end.

(** [runPipeline (userEmail)], given the server as a function from
    requests to responses. *)
Definition runPipeline (fetch : Request -> Response) (userEmail : string)
  : Error + json :=
  let response := fetch (runPipeline_request userEmail) in
  if negb (ok response) then
    let errorData := default (JObject []) (parsed response) in
    match errorData with
    | JNull => inl TypeError
    | _ =>
        match get "detail" errorData with
        | Some detail =>
            if truthy detail then inl (Detail detail)
            else inl (HttpError ("HTTP error! status: " ++ pretty (http_status response))%string)
        | None => inl (HttpError ("HTTP error! status: " ++ pretty (http_status response))%string)
        end
    end
  else
    match parsed response with
    | Some value => inr value
    | None => inl SyntaxError
    end.

End Api.

(** ** Domain analysis panel ([DomainSynthesis]) *)

Module DomainSynthesis.

(** The texts shown when the page passes no synthesis. *)
Definition placeholder : gmap string string :=
  {[ "prawo" := "No legal domain analysis available - the domain synthesis files could not be loaded from storage.";
     "polityka" := "No political domain analysis available - the domain synthesis files could not be loaded from storage.";
     "financial" := "No financial domain analysis available - the domain synthesis files could not be loaded from storage." ]}.

(** [loadDomainSynthesis]: the value given to [setDomainData].  The
    [domainSynthesis] prop is an optional object from domain keys to
    texts; it is used when it has at least one key. *)
Definition loadDomainSynthesis (domainSynthesis : option (gmap string string))
  : gmap string string :=
  match domainSynthesis with
  | Some data => if decide (data = ∅) then placeholder else data
  | None => placeholder
  end.

(** [text || fallback]: [undefined] and the empty string are falsy. *)
Definition or_else (text : option string) (fallback : string) : string :=
  match text with
  | Some t => if String.eqb t EmptyString then fallback else t
  | None => fallback
  end.

(** A tab of the panel: the [value] of its trigger, the label of its
    badge and the text given to the markdown renderer. *)
Record Tab : Type := {
  value : string;
  label : string;
  content : string
}.

(** The tabs of the panel once the data is loaded. *)
Definition tabs (domainData : gmap string string) : list Tab :=
  [ {| value := "prawo"; label := "Legal";
       content := or_else (domainData !! "prawo") "No legal analysis available" |};
    {| value := "polityka"; label := "Political";
       content := or_else (domainData !! "polityka") "No political analysis available" |};
    {| value := "financial"; label := "Financial";
       content := or_else (domainData !! "financial") "No financial analysis available" |} ].

End DomainSynthesis.

(** ** Pipeline orchestrator

    The orchestrator runs on the server (the [backend] package: agents,
    workflows and API routes) and is not part of the sources embedded
    above, which only call it through [Api.runPipeline].  This module
    models it from sections 3, 4, 7 and 9 of the specification. *)

Module Orchestrator.

(** Modelled from the spec: the [Stream] identifiers of the server's
    static configuration (section 3). *)
Inductive Stream : Type := legal | political | financial.

#[global] Instance Stream_eq_dec : EqDecision Stream.
Proof. solve_decision. Defined.

Definition Stream_to_nat (s : Stream) : nat :=
  match s with legal => 0 | political => 1 | financial => 2 end%nat.

Definition Stream_of_nat (n : nat) : option Stream :=
  match n with
  | 0 => Some legal
  | 1 => Some political
  | 2 => Some financial
  | _ => None
  end%nat.

#[global] Instance Stream_countable : Countable Stream.
Proof.
  refine (inj_countable Stream_to_nat Stream_of_nat _).
  intros []; reflexivity.
Defined.

(** Modelled from the spec: the error taxonomy of section 7. *)
Inductive StageError : Type :=
| SearchUnavailable
| RateLimited
| ProviderTimeout
| ContentRejected
| InvalidRequest
| StreamDegraded
| PersistenceFailure.

(** Modelled from the spec: the raw search hit of section 3, produced by
    the server's Search stage. *)
Record Candidate : Type := {
  c_title : string;
  snippet : string;
  url : string;
  source : string;
  published_at : string
}.

(** Modelled from the spec: the normalized unit of content of section 3,
    produced by the server's Ingestion stage. *)
Record Fragment : Type := {
  f_text : string;
  source_url : string;
  source_name : string;
  f_stream : Stream;
  extracted_entities : list string
}.

(** Modelled from the spec: the output of the server's Writer stage
    (section 3). *)
Record StreamNarrative : Type := {
  n_stream : Stream;
  narrative_text : string;
  n_entities : list string
}.

(** Modelled from the spec: the output of the server's Enrichment stage
    (section 3). *)
Record EnrichmentContext : Type := {
  e_stream : Stream;
  summary_text : string;
  citations : list string
}.

(** Modelled from the spec: the categories and impact levels of a
    categorized item (section 3). *)
Inductive Category : Type := cat_legal | cat_political | cat_market.

Inductive ImpactLevel : Type := low | medium | high | critical.

(** Modelled from the spec: the atomic unit of a stream's categorized
    report (section 3). *)
Record CategorizedItem : Type := {
  i_text : string;
  category : Category;
  impact_level : ImpactLevel;
  i_entities : list string;
  sources : list string
}.

(** Modelled from the spec: the report of one stream (section 3). *)
Record DomainReport : Type := {
  stream : Stream;
  items : list CategorizedItem;
  generated_at : string
}.

(** Modelled from the spec: the merged report the orchestrator owns
    (section 3). *)
Record MergedReport : Type := {
  domain_reports : gmap Stream DomainReport;
  merged_at : string
}.

(** Modelled from the spec: an alert and the output of the server's Tips
    and Alerts stage (sections 3 and 4.7).  The level is the integer the
    stage's provider returns. *)
Record Alert : Type := {
  text : string;
  alert_level : Z
}.

Record TipsAlerts : Type := {
  tips : list string;
  alerts : list Alert
}.

(** Modelled from the spec: what the persistence collaborator returns
    for a stored run (sections 3 and 6). *)
Record StorageResult : Type := {
  report_id : string;
  merged_report_path : string;
  tips_alerts_json_path : string;
  per_domain_paths : gmap Stream string
}.

(** Modelled from the spec: the retry policy value of section 9 (how
    many further attempts follow a failed call, and which error kinds
    are retried). *)
Record RetryPolicy : Type := {
  max_retries : nat;
  retryable : StageError -> bool
}.

(** Modelled from the spec: the configuration object of section 9 with
    the injected provider clients.  [search s k] is the answer of the
    search provider to the [k]-th call for the queries of stream [s];
    the other stages are the judgements and texts their providers
    return. *)
Record Config : Type := {
  policy : RetryPolicy;
  now : string;
  search : Stream -> nat -> StageError + list Candidate;
  verify : Stream -> Candidate -> bool;
  ingest : Stream -> Candidate -> option Fragment;
  write : Stream -> list Fragment -> StreamNarrative;
  enrich : Stream -> StageError + EnrichmentContext;
  categorize : StreamNarrative -> EnrichmentContext -> list CategorizedItem;
  synthesize : MergedReport -> TipsAlerts;
  persist : string -> MergedReport -> TipsAlerts -> StageError + StorageResult
}.

(** Modelled from the spec: local retry of a recoverable stage error,
    with a bounded number of attempts (section 7).  The first call is
    attempt [attempt]; a non-retryable error or the last permitted
    failure is returned as it is. *)
Fixpoint with_retry {A : Type} (retryable : StageError -> bool) (retries attempt : nat)
         (call : nat -> StageError + A) : StageError + A :=
  match call attempt with
  | inr a => inr a
  | inl e =>
      if retryable e then
        match retries with
        | O => inl e
        | S retries' => with_retry retryable retries' (S attempt) call
        end
      else inl e
  end.

(** Modelled from the spec: the Search stage under the orchestrator's
    retry policy (sections 4.1 and 7). *)
Definition search_stage (cfg : Config) (s : Stream) : StageError + list Candidate :=
  with_retry (retryable (policy cfg)) (max_retries (policy cfg)) 0%nat (search cfg s).

(** Modelled from the spec: Verification keeps the accepted candidates
    (section 4.2), Ingestion yields zero or one fragment for each
    (section 4.3). *)
Definition fragments_of (cfg : Config) (s : Stream) (candidates : list Candidate)
  : list Fragment :=
  omap (ingest cfg s) (filter (fun c => verify cfg s c = true) candidates).

(** Modelled from the spec: the Writer stage, which states "no material
    developments" for an empty fragment sequence (section 4.4). *)
Definition writer_stage (cfg : Config) (s : Stream) (fragments : list Fragment)
  : StreamNarrative :=
  match fragments with
  | [] => {| n_stream := s;
             narrative_text := "no material developments";
             n_entities := [] |}
  | _ => write cfg s fragments
  end.

(** Modelled from the spec: Enrichment fails open (section 4.5). *)
Definition enrichment_stage (cfg : Config) (s : Stream) : EnrichmentContext :=
  match enrich cfg s with
  | inr context => context
  | inl _ => {| e_stream := s; summary_text := EmptyString; citations := [] |}
  end.

(** Modelled from the spec: the category that belongs to a stream. *)
Definition category_of (s : Stream) : Category :=
  match s with
  | legal => cat_legal
  | political => cat_political
  | financial => cat_market
  end.

(** Modelled from the spec: equality of categories, for the consistency
    check of section 4.6. *)
Definition category_eqb (c d : Category) : bool :=
  match c, d with
  | cat_legal, cat_legal | cat_political, cat_political | cat_market, cat_market => true
  | _, _ => false
  end.

(** Modelled from the spec: an item is emitted when it has a source and
    its category is that of the owning stream (section 4.6). *)
Definition valid_item (s : Stream) (item : CategorizedItem) : bool :=
  negb (Nat.eqb (length (sources item)) 0) && category_eqb (category item) (category_of s).

(** Modelled from the spec: the Categorization stage (section 4.6). *)
Definition categorization_stage (cfg : Config) (s : Stream)
           (narrative : StreamNarrative) (context : EnrichmentContext) : DomainReport :=
  {| stream := s;
     items := filter (fun item => valid_item s item = true) (categorize cfg narrative context);
     generated_at := now cfg |}.

(** Modelled from the spec: the report of a stream whose search
    returned [candidates]: Verification, Ingestion, Writer, Enrichment
    and Categorization in sequence (section 2). *)
Definition report_from (cfg : Config) (s : Stream) (candidates : list Candidate)
  : DomainReport :=
  categorization_stage cfg s
    (writer_stage cfg s (fragments_of cfg s candidates))
    (enrichment_stage cfg s).

(** Modelled from the spec: the empty report of a degraded stream. *)
Definition empty_report (cfg : Config) (s : Stream) : DomainReport :=
  {| stream := s; items := []; generated_at := now cfg |}.

(** Modelled from the spec: the terminal state of a stream task, success
    or degraded with the recorded reason (section 4.8). *)
Inductive StreamStatus : Type :=
| Succeeded
| Degraded (reason : StageError).

(** Modelled from the spec: the per-stream task of the server's workflow,
    which is not in the sources: one stream's stage sequence; a stream
    that still fails after its retries degrades to the empty report and
    the status records it (sections 4.8 and 7). *)
Definition run_stream (cfg : Config) (s : Stream) : DomainReport * StreamStatus :=
  match search_stage cfg s with
  | inr candidates => (report_from cfg s candidates, Succeeded)
  | inl e => (empty_report cfg s, Degraded e)
  end.

(** Modelled from the spec: the streams run as independent tasks, one
    result for each requested stream (section 5). *)
Definition run_streams (cfg : Config) (streams : list Stream)
  : list (Stream * (DomainReport * StreamStatus)) :=
  map (fun s => (s, run_stream cfg s)) streams.

(** Modelled from the spec: the barrier writes each returned stream
    into the merged-report accumulator (section 5). *)
Definition merge_reports (results : list (Stream * (DomainReport * StreamStatus)))
  : gmap Stream DomainReport :=
  foldr (fun result acc => <[result.1 := result.2.1]> acc) ∅ results.

(** Modelled from the spec: the recorded status of each returned stream
    (section 4.8). *)
Definition merge_status (results : list (Stream * (DomainReport * StreamStatus)))
  : gmap Stream StreamStatus :=
  foldr (fun result acc => <[result.1 := result.2.2]> acc) ∅ results.

(** Modelled from the spec: the merge step of the server's workflow,
    which is not in the sources: the merged report of a run over
    [streams] (sections 3 and 4.8). *)
Definition merged_report (cfg : Config) (streams : gset Stream) : MergedReport :=
  {| domain_reports := merge_reports (run_streams cfg (elements streams));
     merged_at := now cfg |}.

(** Modelled from the spec: the answer of a completed run of the server
    (section 6) together with the recorded status of each stream. *)
Record RunResult : Type := {
  run_domain_reports : gmap Stream DomainReport;
  final_tips_alerts : TipsAlerts;
  storage_result : StorageResult;
  run_report_id : string;
  stream_status : gmap Stream StreamStatus
}.

(** Modelled from the spec: the states of a run (section 4.8), each with
    the data the run holds in it. *)
Inductive RunState : Type :=
| Initialized (user_ref : string) (streams : gset Stream)
| StreamsRunning (user_ref : string) (streams : gset Stream)
| Merging (user_ref : string) (results : list (Stream * (DomainReport * StreamStatus)))
| SynthesizingTips (user_ref : string) (merged : MergedReport)
                   (statuses : gmap Stream StreamStatus)
| Persisting (user_ref : string) (merged : MergedReport) (tips_alerts : TipsAlerts)
             (statuses : gmap Stream StreamStatus)
| Completed (result : RunResult)
| Failed (reason : StageError).

(** Modelled from the spec: the terminal states of a run (section 4.8). *)
Definition terminal (state : RunState) : bool :=
  match state with
  | Completed _ | Failed _ => true
  | _ => false
  end.

(** Modelled from the spec: one transition of the server's run, which is
    not in the sources (section 4.8).  An empty request fails fast; the
    streams run to their terminal per-stream states; the barrier merges
    them; the single Tips and Alerts stage sees the merged report; only
    a failed final write fails the run; [Completed] and [Failed] are
    absorbing. *)
Definition step (cfg : Config) (state : RunState) : RunState :=
  match state with
  | Initialized user_ref streams =>
      if decide (streams = ∅) then Failed InvalidRequest
      else StreamsRunning user_ref streams
  | StreamsRunning user_ref streams =>
      Merging user_ref (run_streams cfg (elements streams))
  | Merging user_ref results =>
      SynthesizingTips user_ref
        {| domain_reports := merge_reports results; merged_at := now cfg |}
        (merge_status results)
  | SynthesizingTips user_ref merged statuses =>
      Persisting user_ref merged (synthesize cfg merged) statuses
  | Persisting user_ref merged tips_alerts statuses =>
      match persist cfg user_ref merged tips_alerts with
      | inl _ => Failed PersistenceFailure
      | inr stored =>
          Completed {| run_domain_reports := domain_reports merged;
                       final_tips_alerts := tips_alerts;
                       storage_result := stored;
                       run_report_id := report_id stored;
                       stream_status := statuses |}
      end
  | Completed result => Completed result
  | Failed reason => Failed reason
  end.

(** Modelled from the spec: the server's [runPipeline (user_ref, streams)]
    behind the [/pipeline/run] route, which is not in the sources
    (sections 4.8 and 6): the call blocks until the run is completed or
    failed, which takes the five transitions from [Initialized]. *)
Definition runPipeline (cfg : Config) (user_ref : string) (streams : gset Stream)
  : RunState :=
  Nat.iter 5 (step cfg) (Initialized user_ref streams).

End Orchestrator.

(** ** Chat store: the other actions of the store *)

Module AgentActions.

Import AgentStore.

(** The first [n] bytes of a text: [s.substring (0, n)] for a text of
    one-byte characters, such as a time of day. *)
Fixpoint slice_to (n : nat) (s : string) : string :=
  match n, s with
  | O, _ => EmptyString
  | S _, EmptyString => EmptyString
  | S n', String a rest => String a (slice_to n' rest)
  end.

(** [selectThread (threadId)]: the first listed thread with the id
    becomes the current one; without such a thread nothing is set. *)
Definition selectThread (threadId : string) (state : AgentState) : AgentState :=
  match List.find (fun t => String.eqb (thread_id t) threadId) (threads state) with
  | Some thread =>
      {| currentThread := Some thread;
         threads := threads state;
         isLoading := isLoading state;
         error := error state |}
  | None => state
  end.

(** [deleteThread (threadId)] *)
Definition deleteThread (threadId : string) (state : AgentState) : AgentState :=
  {| currentThread :=
       match currentThread state with
       | Some thread =>
           if String.eqb (thread_id thread) threadId then None else Some thread
       | None => None
       end;
     threads := List.filter (fun t => negb (String.eqb (thread_id t) threadId))
                            (threads state);
     isLoading := isLoading state;
     error := error state |}.

Definition retitle (newTitle : string) (thread : ConversationThread)
  : ConversationThread :=
  {| thread_id := thread_id thread;
     title := newTitle;
     messages := messages thread |}.

(** [updateThreadTitle (threadId, title)] *)
Definition updateThreadTitle (threadId newTitle : string) (state : AgentState)
  : AgentState :=
  {| currentThread :=
       match currentThread state with
       | Some thread =>
           if String.eqb (thread_id thread) threadId
           then Some (retitle newTitle thread) else Some thread
       | None => None
       end;
     threads := map (fun t => if String.eqb (thread_id t) threadId
                              then retitle newTitle t else t)
                    (threads state);
     isLoading := isLoading state;
     error := error state |}.

(** [clearError ()] *)
Definition clearError (state : AgentState) : AgentState :=
  {| currentThread := currentThread state;
     threads := threads state;
     isLoading := isLoading state;
     error := None |}.

(** What the request of [sendMessage] delivers: the call rejects, or it
    answers with a status and a body; [inr text] is a JSON body whose
    [response] field is [text], [inl message] a body that
    [response.json ()] rejects with that message. *)
Inductive AgentReply : Type :=
| ReplyRejected (message : string)
| Reply (ok : bool) (http_status : Z) (data : string + string).

(** The texts of the store are held as their UTF-8 bytes, while
    [length] and [slice] of a JavaScript string count UTF-16 code
    units.  [units a] is the number of code units that start at the
    byte [a]: none at a continuation byte [10xxxxxx], two (a surrogate
    pair) at the lead byte [1111xxxx] of a four-byte sequence, and one
    at any other byte. *)
Definition units (a : ascii) : nat :=
  let '(Ascii _ _ _ _ b4 b5 b6 b7) := a in
  if b7 && negb b6 then 0%nat
  else if b7 && b6 && b5 && b4 then 2%nat
  else 1%nat.

(** [s.length] *)
Fixpoint string_length (s : string) : nat :=
  match s with
  | EmptyString => 0%nat
  | String a rest => (units a + string_length rest)%nat
  end.

Definition byte_at (n : nat) (s : string) : ascii :=
  default Ascii.zero (String.get n s).

(** The first code unit of the surrogate pair of a code point
    [uuuuu xxxxxx yyyyyyyyyy] above [0xFFFF], whose four bytes are
    [lead] and the first three of [rest]: the high surrogate
    [110110 wwww xxxxxx] with [wwww = uuuuu - 1], held as the three
    bytes [11101101], [1010 wwww] and [10 xxxxxx]. *)
Definition highSurrogate (lead : ascii) (rest : string) : string :=
  let '(Ascii l0 l1 l2 _ _ _ _ _) := lead in
  let '(Ascii k0 k1 k2 k3 k4 k5 _ _) := byte_at 0 rest in
  let '(Ascii _ _ _ _ m4 m5 _ _) := byte_at 1 rest in
  let w := N.pred (N_of_digits [k4; k5; l0; l1; l2]) in
  String (Ascii true false true true false true true true)
    (String (Ascii (N.testbit w 0) (N.testbit w 1) (N.testbit w 2) (N.testbit w 3)
                   false true false true)
       (String (Ascii m4 m5 k0 k1 k2 k3 false true) EmptyString)).

(** [s.slice (0, n)]: the first [n] code units.  A cut between the two
    units of a surrogate pair keeps the high surrogate alone. *)
Fixpoint string_slice_to (n : nat) (s : string) : string :=
  match s with
  | EmptyString => EmptyString
  | String a rest =>
      match units a, n with
      | O, _ => String a (string_slice_to n rest)
      | S O, S m => String a (string_slice_to m rest)
      | S (S O), S O => highSurrogate a rest
      | S (S O), S (S m) => String a (string_slice_to m rest)
      | _, _ => EmptyString
      end
  end.

(** The title a thread gets from its first message:
    [content.slice (0, 50) + (content.length > 50 ? '...' : '')]. *)
Definition titleOf (text : string) : string :=
  (string_slice_to 50 text
   ++ (if (50 <? string_length text)%nat then "..." else EmptyString))%string.

(** The [set] of [sendMessage] after the answer arrived.  [None] stands
    for the [TypeError] of [state.currentThread!] on [null]. *)
Definition addReply (assistantMessage : Message) (text : string) (state : AgentState)
  : option AgentState :=
  match currentThread state with
  | None => None
  | Some thread =>
      let updatedThread :=
        {| thread_id := thread_id thread;
           title := if Nat.eqb (length (messages thread)) 1
                    then titleOf text else title thread;
           messages := messages thread ++ [assistantMessage] |} in
      Some {| currentThread := Some updatedThread;
              threads := map (fun t => if String.eqb (thread_id t) (thread_id updatedThread)
                                       then updatedThread else t)
                             (threads state);
              isLoading := false;
              error := error state |}
  end.

(** [sendMessage (content)]: [now] and [later] are the values of
    [Date.now ()] before the request and after the answer.  The run is
    taken on its own, as for [sendStreamingMessage]. *)
Definition sendMessage (now later : Z) (reply : AgentReply) (text : string)
           (state0 : AgentState) : AgentState :=
  let state1 := match currentThread state0 with
                | None => createNewThread now state0
                | Some _ => state0
                end in
  match currentThread state1 with
  | None => state1
  | Some thread =>
      let userMessage := {| msg_id := "msg_" ++ pretty now;
                            content := text;
                            role := user |}%string in
      let state2 := {| currentThread :=
                         Some {| thread_id := thread_id thread;
                                 title := title thread;
                                 messages := messages thread ++ [userMessage] |};
                       threads := threads state1;
                       isLoading := true;
                       error := None |} in
      match reply with
      | ReplyRejected message => fail message state2
      | Reply false http_status _ =>
          fail ("HTTP error! status: " ++ pretty http_status)%string state2
      | Reply true _ (inl message) => fail message state2
      | Reply true _ (inr answer) =>
          let assistantMessage := {| msg_id := "msg_" ++ pretty later ++ "_assistant";
                                     content := answer;
                                     role := assistant |}%string in
          match addReply assistantMessage text state2 with
          | Some state3 => state3
          | None => fail null_access_message state2
          end
      end
  end.

(** The message the [catch] block of [sendMessage] stores for a request
    that failed; [None] for a request that was answered. *)
Definition failure_message (reply : AgentReply) : option string :=
  match reply with
  | ReplyRejected message => Some message
  | Reply false http_status _ => Some ("HTTP error! status: " ++ pretty http_status)%string
  | Reply true _ (inl message) => Some message
  | Reply true _ (inr _) => None
  end.


(** The user's message and the assistant's message of a send at [now]. *)
Definition userMessage (now : Z) (text : string) : Message :=
  {| msg_id := "msg_" ++ pretty now; content := text; role := user |}%string.

Definition assistantMessage (now : Z) (text : string) : Message :=
  {| msg_id := "msg_" ++ pretty now ++ "_assistant"; content := text;
     role := assistant |}%string.

(** The list of threads when a send starts its request: a send without
    a current thread first creates and lists one. *)
Definition threads_before (now : Z) (state0 : AgentState) : list ConversationThread :=
  match currentThread state0 with
  | Some _ => threads state0
  | None => threads (createNewThread now state0)
  end.

(** The id and the title of the thread a send at [now] writes to. *)
Definition target_id (now : Z) (state0 : AgentState) : string :=
  match currentThread state0 with
  | Some thread => thread_id thread
  | None => ("thread_" ++ pretty now)%string
  end.

Definition target_title (state0 : AgentState) : string :=
  match currentThread state0 with
  | Some thread => title thread
  | None => "Nowa rozmowa"
  end.

(** The store keeps the current thread listed: some thread of [threads]
    has the id of the current thread. *)
Definition listed (state : AgentState) : Prop :=
  match currentThread state with
  | None => True
  | Some thread => exists t, In t (threads state) /\ thread_id t = thread_id thread
  end.

(** The listed copies of the current thread are the current thread. *)
Definition synced (state : AgentState) : Prop :=
  match currentThread state with
  | None => True
  | Some thread =>
      forall t, In t (threads state) -> thread_id t = thread_id thread -> t = thread
  end.

(** The messages of the current thread, none without a thread. *)
Definition current_messages (state : AgentState) : list Message :=
  match currentThread state with
  | Some thread => messages thread
  | None => []
  end.

(** [message.content.split ('\n')] of the chat view: one block per line. *)
Definition contentLines (message : Message) : list string :=
  Js.split newline (content message).

End AgentActions.

(** ** Reports page: filters and the query of the address *)

Module ReportsPage.

Import Reports.

Record ReportFilters : Type := {
  dateRange : string;
  category : string;
  impact : string
}.

(** The text of an impact level, as [lib/types] spells it. *)
Definition level_text (l : ImpactLevel) : string :=
  match l with
  | Low => "Low"
  | Medium => "Medium"
  | High => "High"
  | Critical => "Critical"
  end.

(** [hay.includes (needle)] *)
Fixpoint includes (needle hay : string) : bool :=
  Js.startsWith needle hay
  || match hay with
     | EmptyString => false
     | String _ rest => includes needle rest
     end.

(** The filtering of [fetchReports]: the converted reports that pass the
    category filter and then the impact filter, [All] passing all. *)
Definition applyFilters (filters : ReportFilters) (converted : list Report)
  : list Report :=
  let filtered :=
    if negb (String.eqb (category filters) "All")
    then List.filter (fun r => includes (category filters) (Reports.category r)) converted
    else converted in
  if negb (String.eqb (impact filters) "All")
  then List.filter (fun r => String.eqb (level_text (level (Reports.impact r)))
                                        (impact filters))
                   filtered
  else filtered.

(** Whether an API record passes the impact filter, and whether it
    passes the category filter, told from the record itself. *)
Definition impact_passes (chosen : string) (report : ApiReport) : bool :=
  if String.eqb chosen "All" then true
  else if String.eqb chosen "High" then Js.gt_zero (report_alerts report)
  else if String.eqb chosen "Medium" then negb (Js.gt_zero (report_alerts report))
  else false.

Definition category_passes (chosen : string) (report : ApiReport) : bool :=
  if String.eqb chosen "All" then true
  else includes chosen (match report_domains report with
                        | Some domains => Js.join ", " domains
                        | None => "Mixed"
                        end).

(** [fetchReports]: [answer] is what [getAllReports ()] delivers, an
    error or the [reports] field of the data ([None] when the field is
    missing or falsy), and [shown] the reports in the state.  The
    result is the new state; a failed call leaves it as it is (and
    raises the error toast). *)
Definition fetchReports (toLocaleDateString : string -> string)
           (filters : ReportFilters)
           (answer : Api.Error + option (list ApiReport))
           (shown : list Report) : list Report :=
  match answer with
  | inl _ => shown
  | inr reports =>
      applyFilters filters (convertedReports toLocaleDateString (default [] reports))
  end.

(** [params.set (key, value)] of [URLSearchParams]: the first entry with
    the key takes the value and the other entries with the key go; a new
    key is appended. *)
Fixpoint set (key value : string) (query : list (string * string))
  : list (string * string) :=
  match query with
  | [] => [(key, value)]
  | (k, v) :: rest =>
      if String.eqb k key
      then (key, value) :: List.filter (fun kv => negb (String.eqb (fst kv) key)) rest
      else (k, v) :: set key value rest
  end.

Section Query.

(** [n.toString ()] and [Number (s)] on the integers; [None] is [NaN]. *)
Variable toString : Z -> string.
Variable Number : string -> option Z.

(** The query the page writes into the address: only what differs from
    the defaults. *)
Definition buildQuery (filters : ReportFilters) (page pageSize : Z)
  : list (string * string) :=
  let q0 := [] in
  let q1 := if negb (String.eqb (dateRange filters) "Last 7d")
            then set "dateRange" (dateRange filters) q0 else q0 in
  let q2 := if negb (String.eqb (category filters) "All")
            then set "category" (category filters) q1 else q1 in
  let q3 := if negb (String.eqb (impact filters) "All")
            then set "impact" (impact filters) q2 else q2 in
  let q4 := if negb (page =? 1) then set "page" (toString page) q3 else q3 in
  if negb (pageSize =? 10) then set "pageSize" (toString pageSize) q4 else q4.

(** [searchParams.get (key) || fallback] *)
Definition textParam (key fallback : string) (query : list (string * string)) : string :=
  match Api.param key query with
  | Some v => if String.eqb v EmptyString then fallback else v
  | None => fallback
  end.

(** [Number (searchParams.get (key)) || fallback]: a missing entry is
    [null], which converts to 0; 0 and [NaN] are falsy. *)
Definition numberParam (key : string) (fallback : Z) (query : list (string * string)) : Z :=
  match Api.param key query with
  | Some v => match Number v with
              | Some n => if n =? 0 then fallback else n
              | None => fallback
              end
  | None => fallback
  end.

(** The initial state of the page, read from the query. *)
Definition readFilters (query : list (string * string)) : ReportFilters :=
  {| dateRange := textParam "dateRange" "Last 7d" query;
     category := textParam "category" "All" query;
     impact := textParam "impact" "All" query |}.

Definition readPage (query : list (string * string)) : Z :=
  numberParam "page" 1 query.

Definition readPageSize (query : list (string * string)) : Z :=
  numberParam "pageSize" 10 query.

End Query.

(** *** Footer of the reports table *)

(** [page === totalPages] for the number [Math.ceil] gave. *)
Definition is_page (page : Z) (total : Js.number) : bool :=
  match total with
  | Js.Int n => page =? n
  | Js.Infinity | Js.NaN => false
  end.

(** Whether the "Previous page" and "Next page" buttons are disabled. *)
Definition previousDisabled (page : Z) : bool := page =? 1.

Definition nextDisabled (reports : list Report) (page pageSize : Z) : bool :=
  is_page page (totalPages reports pageSize).

(** The page and page size after the page size is chosen in the select:
    [onPageSizeChange (Number (value)); onPageChange (1)]. *)
Definition choosePageSize (chosen : Z) : Z * Z := (1, chosen).

End ReportsPage.

(** ** API client: the other calls *)

Module ApiCalls.

Import Api.

(** The part the four calls of [lib/api] share: a response that is not
    ok is turned into an error with the [detail] of its body or with
    its status, and an ok response into its parsed body. *)
Definition call (fetch : Request -> Response) (request : Request) : Error + json :=
  let response := fetch request in
  if negb (ok response) then
    let errorData := default (JObject []) (parsed response) in
    match errorData with
    | JNull => inl TypeError
    | _ =>
        match get "detail" errorData with
        | Some detail =>
            if truthy detail then inl (Detail detail)
            else inl (HttpError ("HTTP error! status: " ++ pretty (http_status response))%string)
        | None => inl (HttpError ("HTTP error! status: " ++ pretty (http_status response))%string)
        end
    end
  else
    match parsed response with
    | Some value => inr value
    | None => inl SyntaxError
    end.

Section Calls.

(** [encodeURIComponent] *)
Variable encodeURIComponent : string -> string.

Definition getUserReports_request (userEmail : string) : Request := {|
  method := "GET";
  path := "/users/" ++ encodeURIComponent userEmail ++ "/reports";
  params := [];
  headers := [("Content-Type", "application/json")]
|}%string.

(** [getUserReports (userEmail)]: [data.reports || []]. *)
Definition getUserReports (fetch : Request -> Response) (userEmail : string)
  : Error + json :=
  match call fetch (getUserReports_request userEmail) with
  | inl e => inl e
  | inr JNull => inl TypeError
  | inr data =>
      match get "reports" data with
      | Some reports => if truthy reports then inr reports else inr (JArray [])
      | None => inr (JArray [])
      end
  end.

(** The query of [getAllReports (status, limit, offset)]: [status] only
    when it is given and not empty. *)
Definition getAllReports_request (status : option string) (limit offset : Z) : Request := {|
  method := "GET";
  path := "/reports";
  params := (match status with
             | Some s => if String.eqb s EmptyString then [] else [("status", s)]
             | None => []
             end)
            ++ [("limit", pretty limit); ("offset", pretty offset)];
  headers := [("Content-Type", "application/json")]
|}.

Definition getAllReports (fetch : Request -> Response) (status : option string)
           (limit offset : option Z) : Error + json :=
  call fetch (getAllReports_request status (default 50 limit) (default 0 offset)).

Definition getReportDetail_request (reportId : string) : Request := {|
  method := "GET";
  path := "/reports/" ++ encodeURIComponent reportId;
  params := [];
  headers := [("Content-Type", "application/json")]
|}%string.

Definition getReportDetail (fetch : Request -> Response) (reportId : string)
  : Error + json :=
  call fetch (getReportDetail_request reportId).

End Calls.

End ApiCalls.

(** ** Report chat panel ([ReportChat]) *)

Module ReportChat.

Inductive ChatRole : Type := chat_user | chat_assistant.

Record ChatMessage : Type := {
  id : string;
  reportId : string;
  role : ChatRole;
  content : string;
  createdAt : string
}.

(** The state of the panel. *)
Record Panel : Type := {
  messages : list ChatMessage;
  input : string;
  isLoading : bool
}.

(** The chats in [localStorage], by key.  A stored value is the message
    list that [JSON.stringify] wrote: the messages have string fields
    only, so [JSON.parse] gives the list back. *)
Abbreviation Storage := (gmap string (list ChatMessage)).

Definition chatKey (report : string) : string := ("chat_" ++ report)%string.

(** [loadMessages]: the stored list, or the empty list without one. *)
Definition loadMessages (storage : Storage) (report : string) (panel : Panel) : Panel :=
  {| messages := default [] (storage !! chatKey report);
     input := input panel;
     isLoading := isLoading panel |}.

Section Send.

(** [s.trim ()] *)
Variable trim : string -> string.

(** The mock answer of the panel. *)
Definition mockAnswer (report question : string) : string :=
  ("This is a mock response about report " ++ report
   ++ ". In production, this would be an AI-generated answer based on the report content and your question: "
   ++ String (Ascii.ascii_of_nat 34) question
   ++ String (Ascii.ascii_of_nat 34) EmptyString)%string.

(** [handleSend]: [now] and [later] are the values of [Date.now ()] for
    the two messages, [stamp] and [stamp'] those of
    [new Date ().toISOString ()].  The result is the panel and the
    storage when the send has finished. *)
Definition handleSend (now later : Z) (stamp stamp' : string) (report : string)
           (panel : Panel) (storage : Storage) : Panel * Storage :=
  if String.eqb (trim (input panel)) EmptyString || isLoading panel
  then (panel, storage)
  else
    let userMessage := {| id := "msg_" ++ pretty now;
                          reportId := report;
                          role := chat_user;
                          content := trim (input panel);
                          createdAt := stamp |}%string in
    let newMessages := (messages panel ++ [userMessage])%list in
    let assistantMessage := {| id := "msg_" ++ pretty (later + 1);
                               reportId := report;
                               role := chat_assistant;
                               content := mockAnswer report (trim (input panel));
                               createdAt := stamp' |}%string in
    let updatedMessages := (newMessages ++ [assistantMessage])%list in
    ({| messages := updatedMessages; input := EmptyString; isLoading := false |},
     <[chatKey report := updatedMessages]> storage).

End Send.

End ReportChat.

(** ** Report settings ([UserSettings]) *)

Module UserSettings.

(** What [loadUserSettings] puts into the form for the [report_time] of
    the server: [report_time.substring (0, 5)]. *)
Definition formTime (report_time : string) : string :=
  AgentActions.slice_to 5 report_time.

(** What [handleSave] sends for the time of the form. *)
Definition savedTime (form_time : string) : string :=
  (form_time ++ ":00")%string.

End UserSettings.

(** ** Sign-in page: validation of the form ([AuthPage], and the same
    check in [UserRegistration]) *)

Module Auth.

(** The texts of the form are sequences of UTF-16 code units, which is
    what [trim] and a regular expression without the [u] flag work on. *)
Abbreviation text := (list N).

Definition at_sign : N := 64.
Definition full_stop : N := 46.

(** The class [\s], and what [trim] strips: the white space and line
    terminator code units of ECMAScript. *)
Definition is_space (c : N) : bool :=
  ((9 <=? c) && (c <=? 13) || (c =? 32) || (c =? 160) || (c =? 5760)
   || (8192 <=? c) && (c <=? 8202) || (c =? 8232) || (c =? 8233)
   || (c =? 8239) || (c =? 8287) || (c =? 12288) || (c =? 65279))%N.

Fixpoint trimStart (t : text) : text :=
  match t with
  | c :: rest => if is_space c then trimStart rest else t
  | [] => []
  end.

(** [t.trim ()] *)
Definition trim (t : text) : text :=
  rev (trimStart (rev (trimStart t))).

(** Regular expressions over code units, with character classes. *)
Inductive regex : Type :=
| Never
| Empty
| Class (p : N -> bool)
| Seq (r s : regex)
| Alt (r s : regex)
| Star (r : regex).

(** [r+] *)
Definition Plus (r : regex) : regex := Seq r (Star r).

Fixpoint nullable (r : regex) : bool :=
  match r with
  | Never => false
  | Empty => true
  | Class _ => false
  | Seq r s => nullable r && nullable s
  | Alt r s => nullable r || nullable s
  | Star _ => true
  end.

(** The derivative of [r] by the code unit [c]. *)
Fixpoint deriv (c : N) (r : regex) : regex :=
  match r with
  | Never => Never
  | Empty => Never
  | Class p => if p c then Empty else Never
  | Seq r s => if nullable r then Alt (Seq (deriv c r) s) (deriv c s)
               else Seq (deriv c r) s
  | Alt r s => Alt (deriv c r) (deriv c s)
  | Star r => Seq (deriv c r) (Star r)
  end.

(** [/^r$/.test (t)]: the whole text matches [r]. *)
Fixpoint test (r : regex) (t : text) : bool :=
  match t with
  | [] => nullable r
  | c :: rest => test (deriv c r) rest
  end.

(** The class [[^\s@]]. *)
Definition plain (c : N) : bool := negb (is_space c || (c =? at_sign)%N).

(** [/^[^\s@]+@[^\s@]+\.[^\s@]+$/] *)
Definition emailRegex : regex :=
  Seq (Plus (Class plain))
      (Seq (Class (N.eqb at_sign))
           (Seq (Plus (Class plain))
                (Seq (Class (N.eqb full_stop))
                     (Plus (Class plain))))).

(** The errors of the form, [None] for a field without an error. *)
Record Errors : Type := {
  name_error : option string;
  email_error : option string
}.

Definition is_empty (t : text) : bool :=
  match t with [] => true | _ => false end.

(** The [newErrors] of [validateForm]. *)
Definition formErrors (name email : text) : Errors :=
  {| name_error := if is_empty (trim name) then Some "Name is required" else None;
     email_error := if is_empty (trim email) then Some "Email is required"
                    else if negb (test emailRegex email)
                         then Some "Please enter a valid email address"
                         else None |}.

(** [validateForm ()]: whether [newErrors] has no key. *)
Definition validateForm (name email : text) : bool :=
  match name_error (formErrors name email), email_error (formErrors name email) with
  | None, None => true
  | _, _ => false
  end.

(** The words a regular expression matches. *)
Inductive matches : regex -> text -> Prop :=
| matches_empty : matches Empty []
| matches_class p c : p c = true -> matches (Class p) [c]
| matches_seq r s u v : matches r u -> matches s v -> matches (Seq r s) (u ++ v)
| matches_alt_l r s u : matches r u -> matches (Alt r s) u
| matches_alt_r r s u : matches s u -> matches (Alt r s) u
| matches_star_nil r : matches (Star r) []
| matches_star_cons r u v :
    matches r u -> matches (Star r) v -> matches (Star r) (u ++ v).

End Auth.

(** ** Sample data: rows of the reports table, a configuration of the
    orchestrator, a store, and the reads of a streamed answer *)

Module Samples.

Definition row (name : string) : Reports.Report := {|
  Reports.id := name;
  Reports.title := "Report";
  Reports.status := "draft";
  Reports.createdAt := "2025-10-25";
  Reports.hasDiff := false;
  Reports.category := "prawo";
  Reports.impact := {| Reports.level := Reports.Medium; Reports.description := "0 tips, 0 alerts" |};
  Reports.date := "2025-10-25";
  Reports.summary := "Generated report";
  Reports.r_user_email := "user@example.com";
  Reports.r_path_to_report := None;
  Reports.r_report_alerts_tips_json_path := None
|}.

Definition rows : list Reports.Report := [row "a"; row "b"; row "c"].

Import Orchestrator.

Definition candidate (s : Stream) : Candidate := {|
  c_title := "UKE consultation";
  snippet := "The regulator opens a consultation";
  url := "https://uke.gov.pl/news/1";
  source := "uke.gov.pl";
  published_at := "2025-10-24"
|}.

Definition item (s : Stream) : CategorizedItem := {|
  i_text := "Consultation on wholesale access";
  category := category_of s;
  impact_level := high;
  i_entities := ["UKE"];
  sources := ["https://uke.gov.pl/news/1"]
|}.

Definition stored : StorageResult := {|
  report_id := "r1";
  merged_report_path := "reports/r1/merged.txt";
  tips_alerts_json_path := "reports/r1/tips_alerts.json";
  per_domain_paths := ∅
|}.

(** A configuration whose search provider answers [RateLimited] to
    every call for the political stream and returns one candidate for
    the other streams. *)
Definition config : Config := {|
  policy := {| max_retries := 2;
               retryable := fun e => match e with
                                     | RateLimited | ProviderTimeout => true
                                     | _ => false
                                     end |};
  now := "2025-10-25T05:54:09";
  search := fun s attempt => match s with
                             | political => inl RateLimited
                             | _ => inr [candidate s]
                             end;
  verify := fun _ _ => true;
  ingest := fun s c => Some {| f_text := snippet c;
                               source_url := url c;
                               source_name := source c;
                               f_stream := s;
                               extracted_entities := ["UKE"] |};
  write := fun s fragments => {| n_stream := s;
                                 narrative_text := "One development";
                                 n_entities := ["UKE"] |};
  enrich := fun s => inl ProviderTimeout;
  categorize := fun narrative context => [item (n_stream narrative)];
  synthesize := fun merged => {| tips := ["Review the wholesale offer"];
                                 alerts := [ {| text := "Consultation closes soon";
                                                alert_level := 4 |} ] |};
  persist := fun user_ref merged tips_alerts => inr stored
|}.

Definition all_streams : gset Stream := {[ legal; political; financial ]}.

(** A store whose current thread is listed and holds one message. *)
Definition thread : AgentStore.ConversationThread := {|
  AgentStore.thread_id := "thread_1";
  AgentStore.title := "Roaming";
  AgentStore.messages := [ {| AgentStore.msg_id := "msg_1";
                              AgentStore.content := "What changed in roaming rules?";
                              AgentStore.role := AgentStore.user |} ]
|}.

Definition store : AgentStore.AgentState := {|
  AgentStore.currentThread := Some thread;
  AgentStore.threads := [thread];
  AgentStore.isLoading := false;
  AgentStore.error := None
|}.

(** The body of a streamed answer, the frames [Hello] and [DONE], as two
    reads of one frame each, and the same bytes as three reads whose
    boundaries fall inside the frames. *)
Definition lf : string := String AgentStore.newline EmptyString.

Definition whole_reads : list string :=
  [ ("data: Hello" ++ lf ++ lf)%string;
    ("data: [DONE]" ++ lf ++ lf)%string ].

Definition cut_reads : list string :=
  [ "data: Hel";
    ("lo" ++ lf ++ lf ++ "data: [DO")%string;
    ("NE]" ++ lf ++ lf)%string ].

(** A record of the reports endpoint. *)
Definition apiReport : Reports.ApiReport := {|
  Reports.report_id := "r1";
  Reports.user_email := "user@example.com";
  Reports.report_date := "2025-10-25";
  Reports.report_status := "published";
  Reports.report_domains := Some ["prawo"; "polityka"];
  Reports.report_alerts := Some 2;
  Reports.report_tips := Some 3;
  Reports.report_alerts_tips_json_path := Some "reports/r1/tips_alerts.json";
  Reports.path_to_report := Some "reports/r1/merged.txt";
  Reports.created_at := "2025-10-25T05:54:09"
|}.

Definition filters : ReportsPage.ReportFilters := {|
  ReportsPage.dateRange := "Last 30d";
  ReportsPage.category := "prawo";
  ReportsPage.impact := "High"
|}.

(** Decimal numerals for the numbers of the query: what [toString] writes
    for an integer, and the integer a numeral stands for. *)
Definition toString (n : Z) : string :=
  DecimalString.NilZero.string_of_int (Z.to_int n).

Definition Number (text : string) : option Z :=
  Z.of_int <$> DecimalString.NilZero.int_of_string text.

End Samples.

(** * Properties *)

(** ** The embedding on concrete inputs *)

Section Examples.

Let nl : string := String AgentStore.newline EmptyString.

Example slice_inside : Js.slice [10; 20; 30; 40; 50] 2 4 = [30; 40].
Proof. reflexivity. Qed.

Example slice_past_the_end : Js.slice [10; 20; 30] 2 4 = [30].
Proof. reflexivity. Qed.

Example slice_negative_end : Js.slice [10; 20; 30] 0 (-1) = [10; 20].
Proof. reflexivity. Qed.

Example ceil_div_rounds_up : Js.ceil_div 5 2 = Js.Int 3.
Proof. reflexivity. Qed.

Example ceil_div_by_zero : Js.ceil_div 5 0 = Js.Infinity.
Proof. reflexivity. Qed.

Example split_keeps_empty_pieces :
  Js.split AgentStore.newline ("data: a" ++ nl ++ nl ++ "data: b" ++ nl)%string
  = ["data: a"; EmptyString; "data: b"; EmptyString].
Proof. reflexivity. Qed.

Example show_null : Js.show None = "null".
Proof. reflexivity. Qed.

Example show_negative : Js.show (Some (-12)) = "-12".
Proof. reflexivity. Qed.

Example second_page_of_three_rows :
  Reports.ReportsTable Samples.rows false 2 2
  = Reports.Table [Samples.row "c"] 2 (Js.Int 2).
Proof. reflexivity. Qed.

Example no_rows_no_table : Reports.ReportsTable [] false 1 10 = Reports.NoReportsFound.
Proof. reflexivity. Qed.

Example level_7_is_critical : TipsAlerts.getAlertLevelText 7 = "Critical".
Proof. reflexivity. Qed.

Example level_0_is_low : TipsAlerts.getAlertLevelText 0 = "Low".
Proof. reflexivity. Qed.

Example payloads_of_two_reads :
  AgentStore.payloads
    (AgentStore.lines_of [ ("data: Hel" ++ nl ++ nl ++ "data: lo" ++ nl ++ nl)%string;
                           ("data: [DONE]" ++ nl ++ nl)%string ])
  = ["Hel"; "lo"; "[DONE]"].
Proof. reflexivity. Qed.

(** A line that a read boundary cuts in two is seen as two lines: the
    second piece does not start with the field name and is skipped. *)
Example payloads_of_a_cut_line :
  AgentStore.payloads (AgentStore.lines_of [ "data: Hel"; ("lo" ++ nl ++ nl)%string ])
  = ["Hel"].
Proof. reflexivity. Qed.

Example error_answer_is_rejected :
  Api.runPipeline
    (fun _ => {| Api.ok := false; Api.http_status := 500;
                 Api.parsed := Some (Api.JObject [("detail", Api.JString "Pipeline failed")]) |})
    "user@example.com"
  = inl (Api.Detail (Api.JString "Pipeline failed")).
Proof. reflexivity. Qed.

Example error_answer_without_detail :
  Api.runPipeline
    (fun _ => {| Api.ok := false; Api.http_status := 502; Api.parsed := None |})
    "user@example.com"
  = inl (Api.HttpError "HTTP error! status: 502").
Proof. reflexivity. Qed.

Example empty_request_is_invalid :
  Orchestrator.runPipeline Samples.config "user@example.com" ∅
  = Orchestrator.Failed Orchestrator.InvalidRequest.
Proof. reflexivity. Qed.

End Examples.

(** ** Facts about the JavaScript helpers *)

Section SliceFacts.

Context {A : Type}.
Implicit Types l : list A.

(** With both bounds non-negative and in order, [slice] is a [take]
    after a [drop]: the clamping to the length is absorbed by them. *)
Lemma slice_take_drop l (a b : Z) :
  0 <= a -> a <= b ->
  Js.slice l a b = take (Z.to_nat (b - a)) (drop (Z.to_nat a) l).
Proof.
  intros Ha Hab. unfold Js.slice, Js.relative_index.
  destruct (Z.ltb_spec a 0) as [|_]; [lia|].
  destruct (Z.ltb_spec b 0) as [|_]; [lia|].
  destruct (Z_le_gt_dec (Z.of_nat (length l)) a) as [Hout|Hin].
  - rewrite !drop_ge by lia. by rewrite !take_nil.
  - rewrite (Z.min_l a) by lia.
    destruct (Z_le_gt_dec b (Z.of_nat (length l))) as [Hb|Hb].
    + rewrite (Z.min_l b) by lia. by rewrite Z.max_l by lia.
    + rewrite (Z.min_r b) by lia. rewrite Z.max_l by lia.
      rewrite !take_ge; [done| |]; rewrite length_drop; lia.
Qed.

(** The slice of page [p] with pages of [size] elements. *)
Lemma slice_page l (p size : Z) :
  1 <= p -> 1 <= size ->
  Js.slice l ((p - 1) * size) (p * size)
  = take (Z.to_nat size) (drop (Z.to_nat ((p - 1) * size)) l).
Proof.
  intros Hp Hs. rewrite slice_take_drop by nia.
  f_equal. f_equal. lia.
Qed.

(** The first [n] pages, one after the other, are the first
    [n * size] elements. *)
Lemma pages_concat l (size : Z) (n : nat) :
  1 <= size ->
  concat (map (fun p => Js.slice l ((p - 1) * size) (p * size))
              (map (fun i => Z.of_nat i + 1) (seq 0 n)))
  = take (n * Z.to_nat size) l.
Proof.
  intros Hs. induction n as [|n IH].
  - by rewrite take_0.
  - rewrite seq_S, !map_app, concat_app, IH. simpl.
    rewrite app_nil_r, slice_page by lia.
    replace (Z.to_nat ((Z.of_nat n + 1 - 1) * size))
      with (n * Z.to_nat size)%nat by nia.
    rewrite take_take_drop. f_equal. lia.
Qed.

End SliceFacts.

(** For a positive divisor [ceil_div] is the integer [n] with
    [(n - 1) * b < a <= n * b]. *)
Lemma ceil_div_spec (a b : Z) :
  0 <= a -> 1 <= b ->
  exists n, Js.ceil_div a b = Js.Int n /\ 0 <= n /\ (n - 1) * b < a <= n * b.
Proof.
  intros Ha Hb. unfold Js.ceil_div.
  destruct (Z.eqb_spec b 0) as [|_]; [lia|].
  exists (- (- a / b)). split; [done|].
  pose proof (Z.div_mod (- a) b ltac:(lia)) as Hdm.
  pose proof (Z.mod_pos_bound (- a) b ltac:(lia)) as Hmod.
  nia.
Qed.

(** ** Reports table *)

Section ReportsTableFacts.

Import Reports.

Lemma paginatedReports_take_drop (reports : list Report) (page pageSize : Z) :
  1 <= page -> 1 <= pageSize ->
  paginatedReports reports page pageSize
  = take (Z.to_nat pageSize) (drop (Z.to_nat ((page - 1) * pageSize)) reports).
Proof. intros. by apply slice_page. Qed.

Lemma rows_of_ReportsTable (reports : list Report) (page pageSize : Z) :
  1 <= page -> 1 <= pageSize ->
  rows_of (ReportsTable reports false page pageSize)
  = paginatedReports reports page pageSize.
Proof.
  intros Hp Hs. unfold ReportsTable.
  destruct (Z.eqb_spec (Z.of_nat (length reports)) 0) as [Hlen|Hlen]; [|done].
  destruct reports; [|simpl in Hlen; lia].
  rewrite paginatedReports_take_drop by done.
  by rewrite drop_nil, take_nil.
Qed.

(** C10.  For a reports list, a page size of at least one and a page
    number [page] counted from one, the table shows exactly the
    elements of the list at the indices from [(page - 1) * pageSize] up
    to but excluding [page * pageSize]; [totalPages] is the ceiling of
    [length / pageSize]; and the pages 1 to [totalPages], one after the
    other, are the list itself, so they neither overlap nor omit an
    element and they keep the order. *)
Theorem reports_table_pagination (reports : list Report) (page pageSize : Z)
        (Hpage : 1 <= page) (Hsize : 1 <= pageSize) :
  let rows := rows_of (ReportsTable reports false page pageSize) in
  rows = take (Z.to_nat pageSize) (drop (Z.to_nat ((page - 1) * pageSize)) reports)
  /\ (forall j : nat,
         rows !! j = if decide (Z.of_nat j < pageSize)
                     then reports !! (Z.to_nat ((page - 1) * pageSize) + j)%nat
                     else None)
  /\ exists n : nat,
       totalPages reports pageSize = Js.Int (Z.of_nat n)
       /\ (Z.of_nat n - 1) * pageSize < Z.of_nat (length reports) <= Z.of_nat n * pageSize
       /\ concat (map (fun p => paginatedReports reports p pageSize) (page_numbers n))
          = reports
       /\ (reports <> [] ->
           ReportsTable reports false page pageSize
           = Table (paginatedReports reports page pageSize) page (Js.Int (Z.of_nat n))).
Proof.
  intros rows. subst rows.
  rewrite rows_of_ReportsTable, paginatedReports_take_drop by done.
  split; [done|]. split.
  - intros j. rewrite lookup_take, lookup_drop.
    destruct (decide (j < Z.to_nat pageSize)%nat), (decide (Z.of_nat j < pageSize));
      try done; lia.
  - destruct (ceil_div_spec (Z.of_nat (length reports)) pageSize) as (n & Hn & Hn0 & Hbounds);
      [lia|done|].
    exists (Z.to_nat n). rewrite Z2Nat.id by done.
    split; [done|]. split; [done|]. split.
    + unfold paginatedReports, page_numbers. rewrite pages_concat by done.
      apply take_ge. nia.
    + intros Hne. unfold ReportsTable.
      destruct (Z.eqb_spec (Z.of_nat (length reports)) 0) as [Hlen|Hlen].
      * destruct reports; [done|simpl in Hlen; lia].
      * unfold totalPages. rewrite Hn.
        by rewrite paginatedReports_take_drop.
Qed.

End ReportsTableFacts.

(** ** Conversion of the API records *)

Section ConversionFacts.

Import Reports.

Variable toLocaleDateString : string -> string.

Lemma gt_zero_spec (x : option Z) :
  Js.gt_zero x = true <-> exists n, x = Some n /\ 0 < n.
Proof.
  destruct x as [n|]; simpl.
  - rewrite Z.ltb_lt. split; [eauto|]. by intros (? & [= <-] & ?).
  - split; [done|]. by intros (? & ? & ?).
Qed.

(** C8.  Both conversions of an API record, the one of the reports list
    and the one of the report detail page, give the impact level High
    exactly when the record's [report_alerts] is a number greater than
    zero, and Medium in every other case; neither ever gives Low or
    Critical. *)
Theorem impact_level_from_alert_count (report : ApiReport) :
  let listed := level (impact (convertReport toLocaleDateString report)) in
  let detailed := d_level (d_impact (convertReportDetail toLocaleDateString report)) in
  (listed = High <-> exists n, report_alerts report = Some n /\ 0 < n)
  /\ (listed = Medium <-> ~ exists n, report_alerts report = Some n /\ 0 < n)
  /\ listed <> Low /\ listed <> Critical
  /\ detailed = listed.
Proof.
  simpl. rewrite <- gt_zero_spec.
  destruct (Js.gt_zero (report_alerts report)); repeat split; done.
Qed.

End ConversionFacts.

(** ** Tips and alerts panel *)

Section TipsAlertsFacts.

Import TipsAlerts.

Lemma renderTips_lookup (data : TipsAlertsData) (i : nat) :
  renderTips data !! i
  = (fun tip => {| tip_number := Z.of_nat i + 1; tip_text := tip |}) <$> tips data !! i.
Proof. unfold renderTips. by rewrite list_lookup_imap. Qed.

Lemma renderTips_texts (data : TipsAlertsData) :
  map tip_text (renderTips data) = tips data.
Proof.
  unfold renderTips. apply list_eq. intros i.
  rewrite list_lookup_fmap, list_lookup_imap.
  by destruct (tips data !! i).
Qed.

(** C7.  Whatever the panel receives, the card at position [i] of the
    tips tab carries the number [i + 1] and the tip at position [i] of
    the tips sequence, and the texts of the cards read in order are the
    tips sequence itself; and when the detail page hands over the data
    [d] of the endpoint, that sequence is [tips d], unchanged: nothing
    between the data and the cards sorts or drops a tip. *)
Theorem tips_ranked_by_generation_order
        (now : string) (received : TipsAlertsProp) (d : TipsAlertsData) (i : nat) :
  let data := loadTipsAlerts now received in
  renderTips data !! i
  = (fun tip => {| tip_number := Z.of_nat i + 1; tip_text := tip |}) <$> tips data !! i
  /\ map tip_text (renderTips data) = tips data
  /\ length (renderTips data) = length (tips data)
  /\ tips (loadTipsAlerts now (fetchReport_tipsAlerts (prop_data d))) = tips d
  /\ map tip_text (renderTips (loadTipsAlerts now (fetchReport_tipsAlerts (prop_data d))))
     = tips d.
Proof.
  intros data. split; [apply renderTips_lookup|].
  split; [apply renderTips_texts|].
  split; [unfold renderTips; apply length_imap|].
  split; [done|]. apply renderTips_texts.
Qed.

Lemma getAlertLevelText_cases (level : Z) :
  (5 <= level /\ getAlertLevelText level = "Critical")
  \/ (level = 4 /\ getAlertLevelText level = "High")
  \/ (level = 3 /\ getAlertLevelText level = "Medium")
  \/ (level < 3 /\ getAlertLevelText level = "Low").
Proof.
  unfold getAlertLevelText.
  destruct (Z.leb_spec 5 level); [by left|].
  destruct (Z.leb_spec 4 level); [right; left; split; [lia|done]|].
  destruct (Z.leb_spec 3 level); [right; right; left; split; [lia|done]|].
  right; right; right. split; [lia|done].
Qed.

(** The colour of the badge follows the same thresholds as its text:
    two levels get the same colour exactly when they get the same
    label. *)
Lemma getAlertLevelColor_follows_text (a b : Z) :
  getAlertLevelColor a = getAlertLevelColor b
  <-> getAlertLevelText a = getAlertLevelText b.
Proof.
  unfold getAlertLevelColor, getAlertLevelText.
  destruct (5 <=? a), (4 <=? a), (3 <=? a), (5 <=? b), (4 <=? b), (3 <=? b);
    split; intros H; solve [reflexivity | discriminate H].
Qed.

(** The alerts tab shows each alert at its position with its own level
    and the label of that level. *)
Lemma renderAlerts_lookup (data : TipsAlertsData) (i : nat) :
  renderAlerts data !! i
  = (fun a => {| alert_number := Z.of_nat i + 1;
                 badge_class := getAlertLevelColor (alert_level a);
                 badge_text := getAlertLevelText (alert_level a);
                 badge_level := alert_level a;
                 alert_text := alert a |}) <$> alerts data !! i.
Proof. unfold renderAlerts. by rewrite list_lookup_imap. Qed.

(** C9.  [getAlertLevelText] gives every integer level one label:
    Critical exactly for the levels from 5 up, High exactly for 4,
    Medium exactly for 3 and Low exactly for the levels below 3; and
    for [a <= b] the label of [a] is not above the label of [b] in the
    order Low, Medium, High, Critical.  [getAlertLevelColor] separates
    the levels in the same way. *)
Theorem alert_label_total_monotone (a b : Z) (Hab : a <= b) :
  (getAlertLevelText a = "Critical" <-> 5 <= a)
  /\ (getAlertLevelText a = "High" <-> a = 4)
  /\ (getAlertLevelText a = "Medium" <-> a = 3)
  /\ (getAlertLevelText a = "Low" <-> a < 3)
  /\ (exists sa sb,
         severity_of_text (getAlertLevelText a) = Some sa
         /\ severity_of_text (getAlertLevelText b) = Some sb
         /\ (severity_rank sa <= severity_rank sb)%nat)
  /\ (getAlertLevelColor a = getAlertLevelColor b
      <-> getAlertLevelText a = getAlertLevelText b).
Proof.
  split; [|split; [|split; [|split; [|split; [|apply getAlertLevelColor_follows_text]]]]];
    destruct (getAlertLevelText_cases a) as [[Ha ->]|[[Ha ->]|[[Ha ->]|[Ha ->]]]];
    try (split; (done || lia)).
  all: destruct (getAlertLevelText_cases b) as [[Hb ->]|[[Hb ->]|[[Hb ->]|[Hb ->]]]];
    try lia; eexists _, _; (split; [reflexivity|]); (split; [reflexivity|]);
    simpl; lia.
Qed.

End TipsAlertsFacts.

(** ** Streaming consumer of the chat store *)

Section StreamingFacts.

Import AgentStore.

Local Arguments Js.startsWith : simpl never.
Local Arguments Js.slice_from : simpl never.
Local Arguments Js.split : simpl never.

Lemma append_cons (a : ascii) (s t : string) :
  (String a s ++ t)%string = String a (s ++ t)%string.
Proof. reflexivity. Qed.

Lemma append_empty_l (t : string) : (EmptyString ++ t)%string = t.
Proof. reflexivity. Qed.

Lemma append_assoc (s t u : string) : ((s ++ t) ++ u)%string = (s ++ t ++ u)%string.
Proof.
  induction s as [|a s IH]; [done|].
  by rewrite !append_cons, IH.
Qed.

Lemma append_empty_r (s : string) : (s ++ EmptyString)%string = s.
Proof.
  induction s as [|a s IH]; [done|].
  by rewrite append_cons, IH.
Qed.

Lemma concat_all_app (ps qs : list string) :
  concat_all (ps ++ qs)%list = (concat_all ps ++ concat_all qs)%string.
Proof.
  induction ps as [|p ps IH]; [done|].
  change (concat_all ((p :: ps) ++ qs)%list) with (p ++ concat_all (ps ++ qs)%list)%string.
  change (concat_all (p :: ps)) with (p ++ concat_all ps)%string.
  by rewrite IH, append_assoc.
Qed.

Lemma payloads_app (ls ms : list string) :
  payloads (ls ++ ms)%list = (payloads ls ++ payloads ms)%list.
Proof. unfold payloads. by rewrite filter_app, map_app. Qed.

Lemma payloads_frame (line : string) (rest : list string) :
  Js.startsWith "data: " line = true ->
  payloads (line :: rest) = Js.slice_from 6 line :: payloads rest.
Proof. intros H. unfold payloads. by rewrite filter_cons_True. Qed.

Lemma payloads_other (line : string) (rest : list string) :
  Js.startsWith "data: " line = false ->
  payloads (line :: rest) = payloads rest.
Proof.
  intros H. unfold payloads. rewrite filter_cons_False; [done|].
  by rewrite H.
Qed.

Lemma has_done_app (ps qs : list string) :
  has_done (ps ++ qs)%list = has_done ps || has_done qs.
Proof. apply existsb_app. Qed.

Lemma before_done_app (ps qs : list string) :
  before_done (ps ++ qs)%list
  = if has_done ps then before_done ps else (before_done ps ++ before_done qs)%list.
Proof.
  induction ps as [|p ps IH]; simpl; [done|].
  destruct (String.eqb p "[DONE]"); simpl; [done|].
  rewrite IH. by destruct (has_done ps).
Qed.

Lemma before_done_no_done (ps : list string) :
  Forall (fun p => p <> "[DONE]") (before_done ps).
Proof.
  induction ps as [|p ps IH]; simpl; [constructor|].
  destruct (String.eqb_spec p "[DONE]"); by constructor.
Qed.

Lemma before_done_split (ps : list string) :
  exists rest,
    ps = (before_done ps ++ (if has_done ps then "[DONE]" :: rest else []))%list.
Proof.
  induction ps as [|p ps [rest IH]]; simpl; [by exists []|].
  destruct (String.eqb_spec p "[DONE]") as [->|_]; simpl.
  - by exists ps.
  - exists rest. by rewrite <- IH.
Qed.

Lemma has_done_elem (ps : list string) :
  has_done ps = true <-> "[DONE]" ∈ ps.
Proof.
  unfold has_done. rewrite existsb_exists. split.
  - intros (p & Hin & Heq). apply String.eqb_eq in Heq. subst.
    by apply list_elem_of_In.
  - intros Hin. exists "[DONE]". split; [by apply list_elem_of_In|done].
Qed.

Lemma assistant_last_content assistantId acc state :
  assistant_last assistantId acc state ->
  content <$> last_message state = Some acc.
Proof.
  intros (thread & earlier & m & Hcur & Hmsgs & _ & Hacc).
  unfold last_message. rewrite Hcur, Hmsgs, last_snoc. simpl. by rewrite Hacc.
Qed.

Lemma updateAssistant_last assistantId acc acc' state :
  assistant_last assistantId acc state ->
  exists state',
    updateAssistant assistantId acc' state = Some state'
    /\ assistant_last assistantId acc' state'
    /\ isLoading state' = isLoading state.
Proof.
  intros (thread & earlier & m & Hcur & Hmsgs & Hid & _).
  unfold updateAssistant. rewrite Hcur. eexists. split; [done|]. split; [|done].
  eexists _, _, _. simpl. split; [done|].
  rewrite Hmsgs, map_app. simpl. rewrite Hid, String.eqb_refl. done.
Qed.

Lemma stopLoading_last assistantId acc state :
  assistant_last assistantId acc state ->
  assistant_last assistantId acc (stopLoading state).
Proof. intros (thread & earlier & m & H). by exists thread, earlier, m. Qed.

(** The loop over the lines of one read. *)
Lemma processLines_spec assistantId lines : forall acc state,
  assistant_last assistantId acc state ->
  exists state',
    processLines assistantId lines acc state
    = (if has_done (payloads lines) then Returned else Next,
       (acc ++ concat_all (before_done (payloads lines)))%string,
       state')
    /\ assistant_last assistantId
         (acc ++ concat_all (before_done (payloads lines)))%string state'
    /\ isLoading state' = (if has_done (payloads lines) then false else isLoading state).
Proof.
  induction lines as [|line rest IH]; intros acc state Hlast.
  - exists state. change (payloads []) with (@nil string). simpl.
    by rewrite append_empty_r.
  - simpl. destruct (Js.startsWith "data: " line) eqn:Hframe.
    + rewrite payloads_frame by done. simpl.
      destruct (String.eqb (Js.slice_from 6 line) "[DONE]") eqn:Hdone; simpl.
      * exists (stopLoading state). rewrite append_empty_r.
        split; [done|]. split; [by apply stopLoading_last|done].
      * destruct (updateAssistant_last assistantId acc
                    (acc ++ Js.slice_from 6 line)%string state Hlast)
          as (state1 & -> & Hlast1 & Hload1).
        destruct (IH _ _ Hlast1) as (state' & Hrun & Hlast' & Hload').
        exists state'. rewrite <- append_assoc. split; [done|]. split; [done|].
        by rewrite Hload', Hload1.
    + rewrite payloads_other by done. by apply IH.
Qed.

(** The loop over the reads. *)
Lemma processReads_spec assistantId reads : forall acc state,
  assistant_last assistantId acc state ->
  exists state',
    processReads assistantId reads acc state
    = (if has_done (payloads (lines_of reads)) then Returned else Next,
       (acc ++ concat_all (before_done (payloads (lines_of reads))))%string,
       state')
    /\ assistant_last assistantId
         (acc ++ concat_all (before_done (payloads (lines_of reads))))%string state'
    /\ isLoading state'
       = (if has_done (payloads (lines_of reads)) then false else isLoading state).
Proof.
  induction reads as [|chunk later IH]; intros acc state Hlast.
  - exists state. change (payloads (lines_of [])) with (@nil string). simpl.
    by rewrite append_empty_r.
  - simpl.
    destruct (processLines_spec assistantId (Js.split newline chunk) acc state Hlast)
      as (state1 & -> & Hlast1 & Hload1).
    rewrite payloads_app, has_done_app, before_done_app.
    destruct (has_done (payloads (Js.split newline chunk))); simpl.
    + by exists state1.
    + destruct (IH _ _ Hlast1) as (state' & -> & Hlast' & Hload').
      exists state'. rewrite concat_all_app, <- append_assoc.
      split; [done|]. split; [done|]. by rewrite Hload', Hload1.
Qed.

End StreamingFacts.

(** *** Reads that carry whole frames *)

Section FrameFacts.

Import AgentStore.

Lemma split_line (s t : string) :
  occurs newline s = false ->
  Js.split newline (s ++ String newline t)%string = s :: Js.split newline t.
Proof.
  induction s as [|a s IH]; intros Hs.
  - done.
  - simpl in Hs. apply orb_false_iff in Hs as [Ha Hs].
    change (Js.split newline (String a s ++ String newline t)%string)
      with (if Ascii.eqb a newline
            then EmptyString :: Js.split newline (s ++ String newline t)%string
            else match Js.split newline (s ++ String newline t)%string with
                 | piece :: pieces => String a piece :: pieces
                 | [] => [String a EmptyString]
                 end).
    by rewrite Ha, IH.
Qed.

Lemma occurs_append (c : ascii) (s t : string) :
  occurs c (s ++ t)%string = occurs c s || occurs c t.
Proof.
  induction s as [|a s IH]; [done|].
  change (occurs c (String a s ++ t)%string)
    with (Ascii.eqb a c || occurs c (s ++ t)%string).
  rewrite IH. simpl. by rewrite orb_assoc.
Qed.

Lemma frame_append (p rest : string) :
  (frame p ++ rest)%string
  = (("data: " ++ p) ++ String newline (String newline rest))%string.
Proof.
  unfold frame. rewrite !append_assoc. do 2 f_equal.
Qed.

(** The lines of a read of whole frames yield the payloads of the
    frames, in their order. *)
Lemma payloads_read_of (frames : list string) :
  Forall (fun p => occurs newline p = false) frames ->
  payloads (Js.split newline (read_of frames)) = frames.
Proof.
  induction 1 as [|p frames Hp _ IH]; [done|].
  change (read_of (p :: frames)) with (frame p ++ read_of frames)%string.
  rewrite frame_append, split_line.
  - change (String newline (read_of frames))
      with (EmptyString ++ String newline (read_of frames))%string.
    rewrite split_line by done.
    rewrite payloads_frame by done. rewrite payloads_other by done.
    by rewrite IH.
  - rewrite occurs_append, Hp. done.
Qed.

Lemma payloads_whole_frames (groups : list (list string)) :
  Forall (Forall (fun p => occurs newline p = false)) groups ->
  payloads (lines_of (map read_of groups)) = concat groups.
Proof.
  induction 1 as [|frames groups Hframes _ IH]; [done|].
  simpl. rewrite payloads_app, payloads_read_of by done.
  f_equal. apply IH.
Qed.

End FrameFacts.

Section StreamingTheorem.

Import AgentStore.

(** X21.  For an answer whose body is read to its end, the consumer
    takes each read on its own: the lines of a read that start with
    [data: ] are its frames and what follows the prefix their payloads.
    It appends the payloads to the content of the assistant's message
    in arrival order; it leaves the loop by [return] exactly when some
    payload is the literal [DONE] marker, and then the content holds
    the payloads that arrived before the first such payload and none
    after it; the marker itself is never appended.  For reads made of
    whole frames whose payloads contain no line break, the payloads are
    those of the frames the server sent. *)
Theorem streaming_consumer_appends_until_done
        (now http_status : Z) (reads : list string) (text : string)
        (state0 : AgentState) :
  let ps := payloads (lines_of reads) in
  (exists final,
      sendStreamingMessage now (Response true http_status (Some reads)) text state0
      = (final, Some (if has_done ps then Returned else Next,
                      concat_all (before_done ps)))
      /\ content <$> last_message final = Some (concat_all (before_done ps))
      /\ isLoading final = negb (has_done ps))
  /\ (has_done ps = true <-> "[DONE]" ∈ ps)
  /\ Forall (fun p => p <> "[DONE]") (before_done ps)
  /\ (exists rest,
         ps = (before_done ps ++ (if has_done ps then "[DONE]" :: rest else []))%list)
  /\ (forall groups,
         reads = map read_of groups ->
         Forall (Forall (fun p => occurs newline p = false)) groups ->
         ps = concat groups).
Proof.
  intros ps. split; [|split; [apply has_done_elem|split;
    [apply before_done_no_done|split; [apply before_done_split|]]]].
  - unfold sendStreamingMessage.
    set (state1 := match currentThread state0 with
                   | None => createNewThread now state0
                   | Some _ => state0
                   end).
    assert (exists thread, currentThread state1 = Some thread) as [thread Hthread].
    { subst state1. destruct (currentThread state0) eqn:Hcur; eauto. }
    rewrite Hthread.
    match goal with
    | |- context [processReads ?aid reads EmptyString ?st] =>
        destruct (processReads_spec aid reads EmptyString st)
          as (final & Hrun & Hlast & Hload)
    end.
    { refine (ex_intro _ _ (ex_intro _ (messages thread ++ [_])%list (ex_intro _ _ _))).
      simpl. split; [done|]. split; [by rewrite <- app_assoc|done]. }
    rewrite append_empty_l in Hrun, Hlast. rewrite Hrun.
    exists final. fold ps in Hload |- *.
    split; [by destruct (has_done ps)|].
    split; [by eapply assistant_last_content|].
    rewrite Hload. by destruct (has_done ps).
  - intros groups -> Hwhole. by apply payloads_whole_frames.
Qed.

(** C6, at frames that the read boundaries cut.  The server sends the
    frames [Hello] and [DONE].  Delivered as two reads of one frame
    each, they make the consumer show [Hello], leave the loop at the
    marker and stop loading.  The same bytes delivered as the three
    reads [data: Hel], [lo], a blank line and [data: [DO], and [NE]] and
    a blank line make it show [Hel[DO]: the rest of the first payload is
    lost, a piece of the marker is appended, the loop is never left at
    the marker and loading never stops.  Nothing is carried over from
    one read to the next. *)
Theorem cut_frames_are_not_reassembled :
  let whole := sendStreamingMessage 2 (Response true 200 (Some Samples.whole_reads))
                                    "Hi" Samples.store in
  let cut := sendStreamingMessage 2 (Response true 200 (Some Samples.cut_reads))
                                  "Hi" Samples.store in
  Samples.whole_reads = map read_of [["Hello"]; ["[DONE]"]]
  /\ concat_all Samples.cut_reads = concat_all Samples.whole_reads
  /\ (whole.2 = Some (Returned, "Hello")
      /\ content <$> last_message whole.1 = Some "Hello"
      /\ isLoading whole.1 = false)
  /\ (cut.2 = Some (Next, "Hel[DO")
      /\ content <$> last_message cut.1 = Some "Hel[DO"
      /\ isLoading cut.1 = true).
Proof. repeat split; vm_compute; reflexivity. Qed.

End StreamingTheorem.


(** ** Orchestrator: merging and degraded streams *)

Section OrchestratorFacts.

Import Orchestrator.

Variable cfg : Config.

Lemma merge_reports_cons (a : Stream) (l : list Stream) :
  merge_reports (run_streams cfg (a :: l))
  = <[a := (run_stream cfg a).1]> (merge_reports (run_streams cfg l)).
Proof. reflexivity. Qed.

Lemma merge_status_cons (a : Stream) (l : list Stream) :
  merge_status (run_streams cfg (a :: l))
  = <[a := (run_stream cfg a).2]> (merge_status (run_streams cfg l)).
Proof. reflexivity. Qed.

Lemma lookup_merge_reports (l : list Stream) (s : Stream) :
  merge_reports (run_streams cfg l) !! s
  = if decide (s ∈ l) then Some (run_stream cfg s).1 else None.
Proof.
  induction l as [|a l IH].
  - rewrite decide_False by apply not_elem_of_nil. apply lookup_empty.
  - rewrite merge_reports_cons, lookup_insert. destruct (decide (a = s)) as [->|Hne].
    + rewrite decide_True; [done|by left].
    + rewrite IH. destruct (decide (s ∈ l)) as [Hin|Hin].
      * rewrite decide_True; [done|by right].
      * rewrite decide_False; [done|]. rewrite elem_of_cons. by intros [?|?].
Qed.

Lemma lookup_merge_status (l : list Stream) (s : Stream) :
  merge_status (run_streams cfg l) !! s
  = if decide (s ∈ l) then Some (run_stream cfg s).2 else None.
Proof.
  induction l as [|a l IH].
  - rewrite decide_False by apply not_elem_of_nil. apply lookup_empty.
  - rewrite merge_status_cons, lookup_insert. destruct (decide (a = s)) as [->|Hne].
    + rewrite decide_True; [done|by left].
    + rewrite IH. destruct (decide (s ∈ l)) as [Hin|Hin].
      * rewrite decide_True; [done|by right].
      * rewrite decide_False; [done|]. rewrite elem_of_cons. by intros [?|?].
Qed.

(** The merged mapping does not depend on the order in which the
    stream tasks return. *)
Lemma merge_reports_order (l l' : list Stream) :
  l ≡ₚ l' ->
  merge_reports (run_streams cfg l) = merge_reports (run_streams cfg l').
Proof.
  intros Hperm. apply map_eq. intros s. rewrite !lookup_merge_reports.
  destruct (decide (s ∈ l)) as [Hin|Hin].
  - rewrite decide_True; [done|]. by rewrite <- Hperm.
  - rewrite decide_False; [done|]. by rewrite <- Hperm.
Qed.

Lemma lookup_merged_report (streams : gset Stream) (s : Stream) :
  domain_reports (merged_report cfg streams) !! s
  = if decide (s ∈ streams) then Some (run_stream cfg s).1 else None.
Proof.
  unfold merged_report. simpl. rewrite lookup_merge_reports.
  destruct (decide (s ∈ elements streams)) as [Hin|Hin];
    rewrite elem_of_elements in Hin.
  - by rewrite decide_True.
  - by rewrite decide_False.
Qed.

Lemma dom_merged_report (streams : gset Stream) :
  dom (domain_reports (merged_report cfg streams)) = streams.
Proof.
  apply set_eq. intros s.
  rewrite elem_of_dom, lookup_merged_report.
  case_decide; split; done || by intros [? ?].
Qed.

(** The five transitions of a run, in one equation. *)
Lemma runPipeline_eq (user_ref : string) (streams : gset Stream) :
  runPipeline cfg user_ref streams
  = if decide (streams = ∅) then Failed InvalidRequest
    else match persist cfg user_ref (merged_report cfg streams)
                       (synthesize cfg (merged_report cfg streams)) with
         | inl _ => Failed PersistenceFailure
         | inr stored =>
             Completed {| run_domain_reports := domain_reports (merged_report cfg streams);
                          final_tips_alerts := synthesize cfg (merged_report cfg streams);
                          storage_result := stored;
                          run_report_id := report_id stored;
                          stream_status := merge_status (run_streams cfg (elements streams)) |}
         end.
Proof.
  unfold runPipeline. simpl. destruct (decide (streams = ∅)); [done|]. simpl.
  fold (merged_report cfg streams). by destruct (persist cfg user_ref _ _).
Qed.

Lemma runPipeline_terminal (user_ref : string) (streams : gset Stream) :
  terminal (runPipeline cfg user_ref streams) = true.
Proof.
  rewrite runPipeline_eq. destruct (decide (streams = ∅)); [done|].
  by destruct (persist cfg user_ref _ _).
Qed.

(** Retries do not help against a provider that answers every call
    with the same error. *)
Lemma with_retry_always_failing {A : Type} (retryable : StageError -> bool)
      (e : StageError) (call : nat -> StageError + A) (retries : nat) :
  forall attempt,
    (forall k, call k = inl e) ->
    with_retry retryable retries attempt call = inl e.
Proof.
  induction retries as [|retries IH]; intros attempt Hcall; simpl;
    rewrite Hcall; destruct (retryable e); try done.
  by apply IH.
Qed.

Lemma run_stream_degraded (s : Stream) (e : StageError) :
  search_stage cfg s = inl e ->
  run_stream cfg s = (empty_report cfg s, Degraded e).
Proof. unfold run_stream. by intros ->. Qed.

Lemma run_stream_succeeded (s : Stream) (candidates : list Candidate) :
  search_stage cfg s = inr candidates ->
  run_stream cfg s = (report_from cfg s candidates, Succeeded).
Proof. unfold run_stream. by intros ->. Qed.

(** The panel has one tab for each domain the client asks for, in the
    order of the request, whatever synthesis the page passes to it. *)
Lemma tabs_are_requested_domains (userEmail : string)
      (domainSynthesis : option (gmap string string)) :
  Api.param "domains" (Api.params (Api.runPipeline_request userEmail))
  = Some (Js.join "," (map DomainSynthesis.value
                           (DomainSynthesis.tabs
                              (DomainSynthesis.loadDomainSynthesis domainSynthesis)))).
Proof. reflexivity. Qed.

(** C2.  The [domain_reports] of the merged report of a run has exactly
    the requested streams as its keys: a requested stream is mapped to
    the report its own stages produced, which for a stream whose search
    failed is the empty report, and no other stream is mapped; the
    answer of a completed run carries the same mapping.  On the client,
    the domain analysis panel has one tab for each domain that
    [runPipeline] requests, whatever synthesis it receives. *)
Theorem merged_report_has_requested_keys (streams : gset Stream) :
  dom (domain_reports (merged_report cfg streams)) = streams
  /\ (forall userEmail domainSynthesis,
         Api.param "domains" (Api.params (Api.runPipeline_request userEmail))
         = Some (Js.join "," (map DomainSynthesis.value
                                  (DomainSynthesis.tabs
                                     (DomainSynthesis.loadDomainSynthesis domainSynthesis)))))
  /\ (forall s,
         domain_reports (merged_report cfg streams) !! s
         = if decide (s ∈ streams) then Some (run_stream cfg s).1 else None)
  /\ (forall s e,
         s ∈ streams -> search_stage cfg s = inl e ->
         domain_reports (merged_report cfg streams) !! s = Some (empty_report cfg s))
  /\ (forall user_ref result,
         runPipeline cfg user_ref streams = Completed result ->
         dom (run_domain_reports result) = streams).
Proof.
  split; [apply dom_merged_report|].
  split; [apply tabs_are_requested_domains|].
  split; [apply lookup_merged_report|].
  split.
  - intros s e Hin Hfail. rewrite lookup_merged_report, decide_True by done.
    by rewrite (run_stream_degraded s e).
  - intros user_ref result. rewrite runPipeline_eq.
    case_decide; [done|].
    destruct (persist cfg user_ref _ _); [done|].
    intros [= <-]. simpl. apply dom_merged_report.
Qed.

(** C3.  When the search provider answers [RateLimited] to every call
    for one requested stream and the final write succeeds, the run
    completes: the answer maps the rate-limited stream to the empty
    report and records it as degraded, maps every other requested
    stream whose search succeeded to the full report of its own stages
    and records it as succeeded, and has exactly the requested keys. *)
Theorem rate_limited_stream_degrades_alone
        (user_ref : string) (streams : gset Stream) (limited : Stream)
        (stored : StorageResult)
        (Hrequested : limited ∈ streams)
        (Hlimited : forall attempt, search cfg limited attempt = inl RateLimited)
        (Hstored : persist cfg user_ref (merged_report cfg streams)
                           (synthesize cfg (merged_report cfg streams))
                   = inr stored) :
  exists result,
    runPipeline cfg user_ref streams = Completed result
    /\ run_domain_reports result !! limited = Some (empty_report cfg limited)
    /\ stream_status result !! limited = Some (Degraded RateLimited)
    /\ (forall s candidates,
           s ∈ streams -> search_stage cfg s = inr candidates ->
           run_domain_reports result !! s = Some (report_from cfg s candidates)
           /\ stream_status result !! s = Some Succeeded)
    /\ dom (run_domain_reports result) = streams.
Proof.
  assert (search_stage cfg limited = inl RateLimited) as Hsearch
    by (by apply with_retry_always_failing).
  rewrite runPipeline_eq, decide_False by set_solver.
  rewrite Hstored. eexists. split; [done|]. simpl.
  assert (forall s, s ∈ streams -> s ∈ elements streams) as Helem
    by (intros s; by rewrite elem_of_elements).
  split.
  { rewrite lookup_merge_reports, decide_True by auto.
    by rewrite (run_stream_degraded _ _ Hsearch). }
  split.
  { rewrite lookup_merge_status, decide_True by auto.
    by rewrite (run_stream_degraded _ _ Hsearch). }
  split; [|apply dom_merged_report].
  intros s candidates Hin Hok.
  rewrite lookup_merge_reports, lookup_merge_status, !decide_True by auto.
  by rewrite (run_stream_succeeded _ _ Hok).
Qed.

End OrchestratorFacts.

(** ** The theorems at the sample data *)

Section Witnesses.

Lemma reports_table_pagination_witness :
  1 <= 2 /\ 1 <= 2
  /\ Reports.rows_of (Reports.ReportsTable Samples.rows false 2 2)
     = take (Z.to_nat 2) (drop (Z.to_nat ((2 - 1) * 2)) Samples.rows).
Proof.
  split; [lia|]. split; [lia|].
  apply (reports_table_pagination Samples.rows 2 2); lia.
Defined.

Lemma alert_label_total_monotone_witness :
  3 <= 5
  /\ exists sa sb,
       TipsAlerts.severity_of_text (TipsAlerts.getAlertLevelText 3) = Some sa
       /\ TipsAlerts.severity_of_text (TipsAlerts.getAlertLevelText 5) = Some sb
       /\ (TipsAlerts.severity_rank sa <= TipsAlerts.severity_rank sb)%nat.
Proof.
  split; [lia|].
  apply (alert_label_total_monotone 3 5). lia.
Defined.

Import Orchestrator.

Lemma rate_limited_stream_degrades_alone_witness :
  political ∈ Samples.all_streams
  /\ (forall attempt, search Samples.config political attempt = inl RateLimited)
  /\ persist Samples.config "user@example.com"
             (merged_report Samples.config Samples.all_streams)
             (synthesize Samples.config (merged_report Samples.config Samples.all_streams))
     = inr Samples.stored
  /\ exists result,
       runPipeline Samples.config "user@example.com" Samples.all_streams
       = Completed result
       /\ run_domain_reports result !! political
          = Some (empty_report Samples.config political)
       /\ stream_status result !! political = Some (Degraded RateLimited)
       /\ (forall s candidates,
              s ∈ Samples.all_streams ->
              search_stage Samples.config s = inr candidates ->
              run_domain_reports result !! s
              = Some (report_from Samples.config s candidates)
              /\ stream_status result !! s = Some Succeeded)
       /\ dom (run_domain_reports result) = Samples.all_streams.
Proof.
  assert (political ∈ Samples.all_streams) as Hin.
  { unfold Samples.all_streams. apply elem_of_union_l, elem_of_union_r.
    by apply elem_of_singleton. }
  split; [exact Hin|]. split; [reflexivity|]. split; [reflexivity|].
  apply (rate_limited_stream_degrades_alone Samples.config "user@example.com"
           Samples.all_streams political Samples.stored Hin); reflexivity.
Defined.

End Witnesses.


(** * Further properties of the embedded code *)

(** ** Chat store actions *)

Section AgentActionsFacts.

Import AgentStore AgentActions.

Lemma find_none_iff (id : string) (l : list ConversationThread) :
  List.find (fun t => String.eqb (thread_id t) id) l = None
  <-> Forall (fun t => thread_id t <> id) l.
Proof.
  induction l as [|t l IH]; simpl.
  - split; [constructor|done].
  - destruct (String.eqb_spec (thread_id t) id) as [Heq|Hne].
    + split; [done|]. intros H. by inversion H.
    + rewrite IH. split; [by constructor|]. intros H. by inversion H.
Qed.

Lemma find_first (id : string) (l : list ConversationThread) (t : ConversationThread) :
  List.find (fun t => String.eqb (thread_id t) id) l = Some t ->
  exists before after,
    l = (before ++ t :: after)%list
    /\ thread_id t = id
    /\ Forall (fun u => thread_id u <> id) before.
Proof.
  induction l as [|u l IH]; simpl; [done|].
  destruct (String.eqb_spec (thread_id u) id) as [Heq|Hne].
  - intros [= <-]. by exists [], l.
  - intros (before & after & -> & Hid & Hbefore)%IH.
    exists (u :: before), after. split; [done|]. split; [done|]. by constructor.
Qed.

(** X1.  [selectThread] never changes the list of threads; for an id
    that no listed thread has it changes nothing at all; otherwise the
    current thread becomes the first listed thread with that id. *)
Theorem selectThread_first_match (id : string) (state : AgentState) :
  threads (selectThread id state) = threads state
  /\ (Forall (fun t => thread_id t <> id) (threads state) ->
      selectThread id state = state)
  /\ (~ Forall (fun t => thread_id t <> id) (threads state) ->
      exists before t after,
        threads state = (before ++ t :: after)%list
        /\ thread_id t = id
        /\ Forall (fun u => thread_id u <> id) before
        /\ currentThread (selectThread id state) = Some t).
Proof.
  unfold selectThread.
  destruct (List.find _ (threads state)) as [t|] eqn:Hfind.
  - split; [done|]. split.
    + intros Hnone%find_none_iff. congruence.
    + intros _. destruct (find_first _ _ _ Hfind) as (before & after & ? & ? & ?).
      by exists before, t, after.
  - split; [done|]. split; [done|].
    intros Hsome. by apply find_none_iff in Hfind.
Qed.

Lemma deleteThread_threads (id : string) (state : AgentState) :
  Forall (fun t => thread_id t <> id) (threads (deleteThread id state)).
Proof.
  unfold deleteThread. simpl. apply List.Forall_forall. intros t Hin.
  apply List.filter_In in Hin as [_ Hne].
  by destruct (String.eqb_spec (thread_id t) id).
Qed.

(** X2.  After [deleteThread] no listed thread has the deleted id, the
    threads with other ids are all still listed, the current thread is
    kept unless it had the deleted id, and selecting the deleted id
    again changes nothing. *)
Theorem deleteThread_removes_for_good (id : string) (state : AgentState) :
  Forall (fun t => thread_id t <> id) (threads (deleteThread id state))
  /\ (forall t, In t (threads (deleteThread id state))
                <-> In t (threads state) /\ thread_id t <> id)
  /\ currentThread (deleteThread id state)
     = match currentThread state with
       | Some thread => if String.eqb (thread_id thread) id then None else Some thread
       | None => None
       end
  /\ (forall thread, currentThread (deleteThread id state) = Some thread ->
                     thread_id thread <> id)
  /\ selectThread id (deleteThread id state) = deleteThread id state.
Proof.
  split; [apply deleteThread_threads|]. split.
  { intros t. unfold deleteThread. simpl. rewrite List.filter_In.
    by destruct (String.eqb_spec (thread_id t) id); split; intros [? ?]. }
  split; [done|]. split.
  { unfold deleteThread. simpl. intros thread.
    destruct (currentThread state) as [cur|]; [|done].
    destruct (String.eqb_spec (thread_id cur) id); [done|]. by intros [= <-]. }
  apply selectThread_first_match, deleteThread_threads.
Qed.

End AgentActionsFacts.

(** ** What the read loop preserves *)

Section LoopInvariants.

Import AgentStore AgentActions.

Local Arguments Js.startsWith : simpl never.
Local Arguments Js.slice_from : simpl never.
Local Arguments Js.split : simpl never.

Variable P : AgentState -> Prop.
Variable assistantId : string.

Hypothesis P_update : forall acc state state',
  P state -> updateAssistant assistantId acc state = Some state' -> P state'.
Hypothesis P_stop : forall state, P state -> P (stopLoading state).

(** A property of the store that every update of the assistant's
    message and the end of loading preserve holds after the loop over
    the lines of a read. *)
Lemma processLines_preserves (lines : list string) : forall acc state,
  P state -> P (processLines assistantId lines acc state).2.
Proof.
  induction lines as [|line rest IH]; intros acc state HP; simpl; [done|].
  destruct (Js.startsWith "data: " line); [|by apply IH].
  destruct (String.eqb (Js.slice_from 6 line) "[DONE]"); [by apply P_stop|].
  destruct (updateAssistant assistantId _ state) as [state'|] eqn:Hupd; [|done].
  apply IH. by eapply P_update.
Qed.

Lemma processReads_preserves (reads : list string) : forall acc state,
  P state -> P (processReads assistantId reads acc state).2.
Proof.
  induction reads as [|chunk later IH]; intros acc state HP; simpl; [done|].
  pose proof (processLines_preserves (Js.split newline chunk) acc state HP) as Hlines.
  destruct (processLines assistantId (Js.split newline chunk) acc state)
    as [[[] acc'] state']; simpl in *; [by apply IH|done|done].
Qed.

End LoopInvariants.

Section StoreInvariant.

Import AgentStore AgentActions.

Lemma listed_intro (state : AgentState) (thread : ConversationThread)
      (t : ConversationThread) :
  currentThread state = Some thread ->
  In t (threads state) -> thread_id t = thread_id thread ->
  listed state.
Proof. intros Hcur Hin Hid. unfold listed. rewrite Hcur. eauto. Qed.

Lemma listed_replace (state : AgentState) (thread thread' : ConversationThread)
      (f : ConversationThread -> ConversationThread) (loading : bool)
      (err : option string) :
  listed state ->
  currentThread state = Some thread ->
  thread_id thread' = thread_id thread ->
  (forall t, thread_id (f t) = thread_id t) ->
  listed {| currentThread := Some thread';
            threads := map f (threads state);
            isLoading := loading;
            error := err |}.
Proof.
  unfold listed. intros Hlisted Hcur Hid Hf. rewrite Hcur in Hlisted.
  destruct Hlisted as (t & Hin & Ht). simpl.
  exists (f t). split; [by apply List.in_map|]. rewrite Hf. congruence.
Qed.

Lemma listed_same_threads (state state' : AgentState) :
  listed state ->
  threads state' = threads state ->
  (forall thread', currentThread state' = Some thread' ->
     exists thread, currentThread state = Some thread
                    /\ thread_id thread' = thread_id thread) ->
  listed state'.
Proof.
  unfold listed. intros Hlisted Hthreads Hcur.
  destruct (currentThread state') as [thread'|]; [|done].
  destruct (Hcur thread' eq_refl) as (thread & Heq & Hid).
  rewrite Heq in Hlisted. destruct Hlisted as (t & Hin & Ht).
  exists t. rewrite Hthreads. split; [done|congruence].
Qed.

Lemma listed_createNewThread (now : Z) (state : AgentState) :
  listed (createNewThread now state).
Proof. unfold listed, createNewThread. simpl. eexists. split; [by left|done]. Qed.

Lemma listed_updateAssistant (assistantId acc : string) (state state' : AgentState) :
  listed state -> updateAssistant assistantId acc state = Some state' -> listed state'.
Proof.
  unfold updateAssistant. intros Hlisted.
  destruct (currentThread state) as [thread|] eqn:Hcur; [|done].
  intros [= <-]. eapply listed_replace; [done..|].
  intros t. simpl. by destruct (String.eqb_spec (thread_id t) (thread_id thread)).
Qed.

Lemma listed_fail (message : string) (state : AgentState) :
  listed state -> listed (fail message state).
Proof. done. Qed.

Lemma listed_stopLoading (state : AgentState) :
  listed state -> listed (stopLoading state).
Proof. done. Qed.

Lemma listed_selectThread (id : string) (state : AgentState) :
  listed state -> listed (selectThread id state).
Proof.
  intros Hlisted. unfold selectThread.
  destruct (List.find _ (threads state)) as [t|] eqn:Hfind; [|done].
  unfold listed. simpl. exists t. split; [|done].
  by apply List.find_some in Hfind as [? _].
Qed.

Lemma listed_deleteThread (id : string) (state : AgentState) :
  listed state -> listed (deleteThread id state).
Proof.
  unfold listed, deleteThread. simpl.
  destruct (currentThread state) as [thread|]; [|done].
  intros (t & Hin & Ht).
  destruct (String.eqb_spec (thread_id thread) id) as [|Hne]; [done|].
  exists t. split; [|done]. apply List.filter_In. split; [done|].
  rewrite Ht. by destruct (String.eqb_spec (thread_id thread) id).
Qed.

Lemma listed_updateThreadTitle (id newTitle : string) (state : AgentState) :
  listed state -> listed (updateThreadTitle id newTitle state).
Proof.
  unfold listed, updateThreadTitle. simpl.
  destruct (currentThread state) as [thread|]; [|done].
  intros (t & Hin & Ht).
  assert (exists t', In t' (map (fun t => if String.eqb (thread_id t) id
                                           then retitle newTitle t else t)
                                (threads state))
                     /\ thread_id t' = thread_id thread) as Hex.
  { eexists. split; [by apply List.in_map|].
    by destruct (String.eqb (thread_id t) id). }
  by destruct (String.eqb (thread_id thread) id).
Qed.

Lemma listed_sendMessage (now later : Z) (reply : AgentReply) (text : string)
      (state : AgentState) :
  listed state -> listed (sendMessage now later reply text state).
Proof.
  intros Hlisted. unfold sendMessage.
  set (state1 := match currentThread state with
                 | None => createNewThread now state
                 | Some _ => state
                 end).
  assert (listed state1) as Hlisted1.
  { subst state1. destruct (currentThread state); [done|apply listed_createNewThread]. }
  destruct (currentThread state1) as [thread|] eqn:Hcur; [|done].
  match goal with
  | |- context [fail _ ?st] => set (state2 := st)
  end.
  assert (listed state2) as Hlisted2.
  { eapply (listed_same_threads state1); [done..|].
    intros thread' [= <-]. by exists thread. }
  destruct reply as [message|[] http_status [message|answer]];
    try by apply listed_fail.
  unfold addReply. simpl.
  eapply (listed_replace state1); [done..|].
  intros t. simpl. by destruct (String.eqb_spec (thread_id t) (thread_id thread)).
Qed.

Lemma listed_sendStreamingMessage (now : Z) (response : FetchResult) (text : string)
      (state : AgentState) :
  listed state -> listed (sendStreamingMessage now response text state).1.
Proof.
  intros Hlisted. unfold sendStreamingMessage.
  set (state1 := match currentThread state with
                 | None => createNewThread now state
                 | Some _ => state
                 end).
  assert (listed state1) as Hlisted1.
  { subst state1. destruct (currentThread state); [done|apply listed_createNewThread]. }
  destruct (currentThread state1) as [thread|] eqn:Hcur; [|done].
  match goal with
  | |- context [fail _ ?st] => set (state2 := st)
  end.
  assert (listed state2) as Hlisted2.
  { eapply (listed_same_threads state1); [done..|].
    intros thread' [= <-]. by exists thread. }
  destruct response as [message|[] http_status [reads|]]; try done.
  match goal with
  | |- context [processReads ?aid reads EmptyString state2] =>
      pose proof (processReads_preserves listed aid
                    (listed_updateAssistant aid) listed_stopLoading
                    reads EmptyString state2 Hlisted2) as Hfinal;
      destruct (processReads aid reads EmptyString state2) as [[[] acc] state3]
  end; done.
Qed.

(** X3.  The store keeps its current thread listed: when some thread of
    [threads] has the id of the current thread (or there is no current
    thread), the same holds after each action of the store:
    [createNewThread], [selectThread], [deleteThread],
    [updateThreadTitle], [clearError], [sendMessage] and
    [sendStreamingMessage], whatever the server answers. *)
Theorem current_thread_stays_listed
        (state : AgentState) (now later : Z) (id newTitle text : string)
        (reply : AgentReply) (response : FetchResult)
        (Hlisted : listed state) :
  listed (createNewThread now state)
  /\ listed (selectThread id state)
  /\ listed (deleteThread id state)
  /\ listed (updateThreadTitle id newTitle state)
  /\ listed (clearError state)
  /\ listed (sendMessage now later reply text state)
  /\ listed (sendStreamingMessage now response text state).1.
Proof.
  split; [apply listed_createNewThread|].
  split; [by apply listed_selectThread|].
  split; [by apply listed_deleteThread|].
  split; [by apply listed_updateThreadTitle|].
  split; [done|].
  split; [by apply listed_sendMessage|by apply listed_sendStreamingMessage].
Qed.

End StoreInvariant.

(** ** [sendMessage] *)

Section SendMessageFacts.

Import AgentStore AgentActions.


Lemma units_bound (a : ascii) : (units a <= 2)%nat.
Proof. destruct a as [? ? ? ? [] [] [] []]; cbn; lia. Qed.

Lemma string_length_append (s t : string) :
  string_length (s ++ t)%string = (string_length s + string_length t)%nat.
Proof.
  induction s as [|a s IH]; [done|].
  rewrite append_cons. cbn [string_length]. rewrite IH. lia.
Qed.

Lemma string_length_highSurrogate (lead : ascii) (rest : string) :
  string_length (highSurrogate lead rest) = 1%nat.
Proof.
  unfold highSurrogate.
  destruct lead, (byte_at 0 rest), (byte_at 1 rest). reflexivity.
Qed.

Lemma string_length_slice (s : string) : forall n : nat,
  string_length (string_slice_to n s) = Nat.min n (string_length s).
Proof.
  induction s as [|a s IH]; intros n; cbn [string_slice_to string_length].
  - by rewrite Nat.min_0_r.
  - pose proof (units_bound a) as Hbound.
    destruct (units a) as [|[|[|k]]] eqn:Hunits; [| | |lia].
    + cbn [string_length]. rewrite Hunits, IH. done.
    + destruct n as [|m]; [done|].
      cbn [string_length]. rewrite Hunits, IH. lia.
    + destruct n as [|[|m]]; [done| |].
      * rewrite string_length_highSurrogate. lia.
      * cbn [string_length]. rewrite Hunits, IH. lia.
Qed.

Lemma string_slice_all (s : string) : forall n : nat,
  (string_length s <= n)%nat -> string_slice_to n s = s.
Proof.
  induction s as [|a s IH]; intros n Hlen; cbn [string_slice_to string_length] in *;
    [done|].
  pose proof (units_bound a) as Hbound.
  destruct (units a) as [|[|[|k]]] eqn:Hunits; [| | |lia].
  - by rewrite IH.
  - destruct n as [|m]; [lia|]. rewrite IH; [done|lia].
  - destruct n as [|[|m]]; [lia|lia|]. rewrite IH; [done|lia].
Qed.

(** The title made from a first message is the message itself when it
    has at most 50 code units, and otherwise its first 50 code units
    followed by three dots; it never has more than 53 code units. *)
Lemma titleOf_spec (text : string) :
  (string_length (titleOf text) <= 53)%nat
  /\ ((string_length text <= 50)%nat -> titleOf text = text)
  /\ ((50 < string_length text)%nat ->
      titleOf text = (string_slice_to 50 text ++ "...")%string
      /\ string_length (string_slice_to 50 text) = 50%nat).
Proof.
  unfold titleOf. split; [|split].
  - rewrite string_length_append, string_length_slice.
    destruct (50 <? string_length text)%nat; cbn [string_length units andb negb]; lia.
  - intros Hshort. destruct (Nat.ltb_spec 50 (string_length text)); [lia|].
    by rewrite append_empty_r, string_slice_all.
  - intros Hlong. destruct (Nat.ltb_spec 50 (string_length text)); [|lia].
    split; [done|]. rewrite string_length_slice. lia.
Qed.

(** A message of 26 two-byte letters (U+0105) has 26 code units and is
    its own title; a message of 60 such letters is cut to 50 of them. *)
Example title_of_two_byte_letters :
  let letter := String "196" (String "133" EmptyString) in
  let message n := concat_all (repeat letter n) in
  titleOf (message 26%nat) = message 26%nat
  /\ titleOf (message 60%nat) = (message 50%nat ++ "...")%string.
Proof. split; reflexivity. Qed.

(** A cut between the two code units of U+1F600 (bytes F0 9F 98 80)
    keeps its high surrogate D83D (bytes ED A0 BD). *)
Example title_cut_inside_a_pair :
  let pair := String "240" (String "159" (String "152" (String "128" EmptyString))) in
  let forty_nine := concat_all (repeat "a" 49%nat) in
  titleOf (forty_nine ++ pair ++ "b")
  = (forty_nine ++ String "237" (String "160" (String "189" EmptyString)) ++ "...")%string.
Proof. reflexivity. Qed.

(** X4.  When the server answers a [sendMessage] with a reply, the
    current thread afterwards holds its earlier messages followed by
    the user's message and the assistant's reply; loading has ended
    with no error; every listed copy of the thread equals the current
    thread; and the thread takes its title from the message exactly
    when it had no message before, in which case the title is the
    message cut to 50 code units (plus three dots when it was cut). *)
Theorem sendMessage_appends_question_and_answer
        (now later http_status : Z) (answer text : string) (state0 : AgentState) :
  let state := sendMessage now later (Reply true http_status (inr answer)) text state0 in
  (exists thread,
      currentThread state = Some thread
      /\ messages thread
         = (current_messages state0
            ++ [ {| msg_id := "msg_" ++ pretty now; content := text; role := user |};
                 {| msg_id := "msg_" ++ pretty later ++ "_assistant";
                    content := answer; role := assistant |} ])%list
      /\ title thread
         = match currentThread state0 with
           | Some before => if Nat.eqb (length (messages before)) 0
                            then titleOf text else title before
           | None => titleOf text
           end)
  /\ isLoading state = false
  /\ error state = None
  /\ synced state
  /\ (string_length (titleOf text) <= 53)%nat
  /\ ((string_length text <= 50)%nat -> titleOf text = text)
  /\ ((50 < string_length text)%nat ->
      titleOf text = (string_slice_to 50 text ++ "...")%string
      /\ string_length (string_slice_to 50 text) = 50%nat).
Proof.
  intros state. subst state. unfold sendMessage.
  split; [|split; [|split; [|split; [|apply titleOf_spec]]]].
  - destruct (currentThread state0) as [before|] eqn:Hcur; simpl.
    + rewrite Hcur. simpl. eexists. split; [done|]. simpl.
      split; [unfold current_messages; by rewrite Hcur, <- app_assoc|].
      by rewrite length_app, Nat.add_1_r.
    + eexists. split; [done|]. simpl. unfold current_messages. by rewrite Hcur.
  - by destruct (currentThread state0) as [before|] eqn:Hcur; simpl; [rewrite Hcur|].
  - by destruct (currentThread state0) as [before|] eqn:Hcur; simpl; [rewrite Hcur|].
  - destruct (currentThread state0) as [before|] eqn:Hcur; simpl.
    + rewrite Hcur. simpl. unfold synced; simpl.
      intros t (u & <- & Hin)%List.in_map_iff.
      by destruct (String.eqb_spec (thread_id u) (thread_id before)).
    + unfold synced; simpl.
      intros t [<-|(u & <- & Hin)%List.in_map_iff].
      * by rewrite String.eqb_refl.
      * by destruct (String.eqb_spec (thread_id u) ("thread_" ++ pretty now)).
Qed.

(** X5.  When the request of [sendMessage] fails (the call rejects, the
    status is not ok, or the body is not JSON), the store shows the
    error and stops loading; the user's message stays at the end of the
    current thread, but the list of threads is the one from before the
    message was added, so no listed copy contains it. *)
Theorem sendMessage_failure_keeps_question
        (now later : Z) (reply : AgentReply) (message text : string)
        (state0 : AgentState)
        (Hfailed : failure_message reply = Some message) :
  let state := sendMessage now later reply text state0 in
  error state = Some message
  /\ isLoading state = false
  /\ current_messages state
     = (current_messages state0
        ++ [ {| msg_id := "msg_" ++ pretty now; content := text; role := user |} ])%list
  /\ threads state
     = match currentThread state0 with
       | Some _ => threads state0
       | None => threads (createNewThread now state0)
       end.
Proof.
  intros state. subst state. unfold sendMessage, current_messages.
  destruct (currentThread state0) as [before|] eqn:Hcur; simpl; rewrite ?Hcur; simpl;
    destruct reply as [m|[] http_status [m|answer]]; simpl in Hfailed;
    try discriminate; injection Hfailed as <-; done.
Qed.

End SendMessageFacts.

(** ** [sendStreamingMessage]: what else it does to the store *)

Section StreamingStoreFacts.

Import AgentStore AgentActions.

Local Arguments Js.startsWith : simpl never.
Local Arguments Js.slice_from : simpl never.
Local Arguments Js.split : simpl never.



Lemma synced_updateAssistant (assistantId acc : string) (state state' : AgentState) :
  updateAssistant assistantId acc state = Some state' -> synced state'.
Proof.
  unfold updateAssistant. destruct (currentThread state) as [thread|]; [|done].
  intros [= <-]. unfold synced. simpl.
  intros t (u & <- & Hin)%List.in_map_iff.
  by destruct (String.eqb_spec (thread_id u) (thread_id thread)).
Qed.

(** Without an appended payload the loop leaves the list of threads as
    it is; with one, or from a synced store, it ends in a synced store. *)
Lemma processLines_threads assistantId lines : forall acc state,
  assistant_last assistantId acc state ->
  (before_done (payloads lines) = [] ->
   threads (processLines assistantId lines acc state).2 = threads state)
  /\ (synced state \/ before_done (payloads lines) <> [] ->
      synced (processLines assistantId lines acc state).2).
Proof.
  induction lines as [|line rest IH]; intros acc state Hlast.
  - split; [done|]. by intros [?|?].
  - simpl. destruct (Js.startsWith "data: " line) eqn:Hframe.
    + rewrite payloads_frame by done. simpl.
      destruct (String.eqb (Js.slice_from 6 line) "[DONE]"); simpl.
      * split; [done|]. by intros [?|?].
      * destruct (updateAssistant_last assistantId acc
                    (acc ++ Js.slice_from 6 line)%string state Hlast)
          as (state1 & Hupd & Hlast1 & _).
        rewrite Hupd. split; [done|]. intros _.
        apply (IH _ _ Hlast1). left. by eapply synced_updateAssistant.
    + rewrite payloads_other by done. by apply IH.
Qed.

Lemma processReads_threads assistantId reads : forall acc state,
  assistant_last assistantId acc state ->
  (before_done (payloads (lines_of reads)) = [] ->
   threads (processReads assistantId reads acc state).2 = threads state)
  /\ (synced state \/ before_done (payloads (lines_of reads)) <> [] ->
      synced (processReads assistantId reads acc state).2).
Proof.
  induction reads as [|chunk later IH]; intros acc state Hlast.
  - split; [done|]. by intros [?|?].
  - simpl.
    destruct (processLines_threads assistantId (Js.split newline chunk) acc state Hlast)
      as [Hsame Hsync].
    destruct (processLines_spec assistantId (Js.split newline chunk) acc state Hlast)
      as (state1 & Hrun & Hlast1 & _).
    rewrite Hrun in Hsame, Hsync |- *. simpl in Hsame, Hsync.
    rewrite payloads_app, before_done_app.
    destruct (has_done (payloads (Js.split newline chunk))); simpl; [done|].
    destruct (IH _ _ Hlast1) as [Hsame' Hsync']. split.
    + intros [Hnil1 Hnil2]%app_eq_nil. rewrite Hsame', Hsame; done.
    + intros [Hs|Hne]; apply Hsync'.
      * left. apply Hsync. by left.
      * destruct (before_done (payloads (Js.split newline chunk))) eqn:Hps.
        -- by right.
        -- left. apply Hsync. by right.
Qed.

End StreamingStoreFacts.

Section StreamingStoreTheorems.

Import AgentStore AgentActions.

Local Arguments Js.startsWith : simpl never.
Local Arguments Js.slice_from : simpl never.
Local Arguments Js.split : simpl never.

(** The store when the request of a streaming send at [now] starts. *)
Lemma streaming_start (now : Z) (text : string) (state0 : AgentState) :
  exists thread,
    currentThread (match currentThread state0 with
                   | None => createNewThread now state0
                   | Some _ => state0
                   end) = Some thread
    /\ thread_id thread = target_id now state0
    /\ title thread = target_title state0
    /\ messages thread = current_messages state0
    /\ threads (match currentThread state0 with
                | None => createNewThread now state0
                | Some _ => state0
                end) = threads_before now state0.
Proof.
  unfold target_id, target_title, current_messages, threads_before.
  destruct (currentThread state0) as [thread|] eqn:Hcur; eexists; eauto.
Qed.

(** X6.  When the request of a streaming send rejects or is answered
    with a status that is not ok, the store shows the error and stops
    loading; when the answer has no body, the store shows no error and
    keeps loading.  In all three cases the user's message and the empty
    placeholder of the assistant stay at the end of the current thread
    and the list of threads is untouched. *)
Theorem streaming_failure_leaves_placeholder
        (now http_status : Z) (message text : string)
        (reads : option (list string)) (state0 : AgentState) :
  let rejected := (sendStreamingMessage now (Rejected message) text state0).1 in
  let refused := (sendStreamingMessage now (Response false http_status reads) text state0).1 in
  let bodiless := (sendStreamingMessage now (Response true http_status None) text state0).1 in
  (error rejected = Some message /\ isLoading rejected = false)
  /\ (error refused = Some ("HTTP error! status: " ++ pretty http_status)%string
      /\ isLoading refused = false)
  /\ (error bodiless = None /\ isLoading bodiless = true)
  /\ Forall (fun final =>
               current_messages final
               = (current_messages state0
                  ++ [userMessage now text; assistantMessage now EmptyString])%list
               /\ threads final = threads_before now state0)
            [rejected; refused; bodiless].
Proof.
  intros rejected refused bodiless. subst rejected refused bodiless.
  unfold sendStreamingMessage.
  destruct (streaming_start now text state0)
    as (thread & -> & _ & _ & Hmessages & Hthreads).
  simpl. rewrite Hmessages, Hthreads.
  repeat split; repeat constructor; done.
Qed.


(** X8.  The list of threads follows a streaming send only through the
    updates of the assistant's message: when at least one payload is
    appended, every listed thread with the id of the current thread
    equals the current thread afterwards; when none is appended (the
    body is empty or starts with the end marker), the list of threads
    is the one from before the user's message was added. *)
Theorem streaming_listed_copy
        (now http_status : Z) (reads : list string) (text : string)
        (state0 : AgentState) :
  let final := (sendStreamingMessage now (Response true http_status (Some reads))
                                     text state0).1 in
  let appended := before_done (payloads (lines_of reads)) in
  (appended <> [] -> synced final)
  /\ (appended = [] -> threads final = threads_before now state0).
Proof.
  intros final appended. subst final appended. unfold sendStreamingMessage.
  destruct (streaming_start now text state0)
    as (thread & -> & Hid & Htitle & Hmessages & Hthreads).
  cbn [msg_id].
  set (aid := ("msg_" ++ pretty now ++ "_assistant")%string).
  match goal with
  | |- context [processReads _ reads EmptyString ?st] => set (state2 := st)
  end.
  assert (assistant_last aid EmptyString state2) as Hlast2.
  { refine (ex_intro _ _ (ex_intro _ (messages thread ++ [_])%list (ex_intro _ _ _))).
    simpl. split; [done|]. split; [by rewrite <- app_assoc|done]. }
  destruct (processReads_threads aid reads EmptyString state2 Hlast2) as [Hsame Hsync].
  destruct (processReads_spec aid reads EmptyString state2 Hlast2)
    as (state3 & Hrun & _).
  rewrite Hrun in Hsame, Hsync |- *. simpl in Hsame, Hsync.
  split.
  - intros Hne. destruct (has_done _); simpl; apply Hsync; by right.
  - intros Hnil. destruct (has_done _); simpl; by rewrite (Hsame Hnil).
Qed.

End StreamingStoreTheorems.

(** ** Lines of a message in the chat view *)

Section LinesFacts.

Import AgentStore AgentActions.

Lemma split_nonempty (c : ascii) (s : string) : Js.split c s <> [].
Proof.
  destruct s as [|a s]; simpl; [done|].
  destruct (Ascii.eqb a c); [done|]. by destruct (Js.split c s).
Qed.

Lemma join_cons (sep : string) (x : string) (xs : list string) :
  xs <> [] -> Js.join sep (x :: xs) = (x ++ sep ++ Js.join sep xs)%string.
Proof. by destruct xs. Qed.

Lemma join_push (sep : string) (a : ascii) (x : string) (xs : list string) :
  Js.join sep (String a x :: xs) = String a (Js.join sep (x :: xs)).
Proof. by destruct xs. Qed.

Lemma join_split (c : ascii) (s : string) :
  Js.join (String c EmptyString) (Js.split c s) = s.
Proof.
  induction s as [|a s IH]; [done|]. simpl.
  destruct (Ascii.eqb_spec a c) as [->|Hne].
  - rewrite join_cons by apply split_nonempty. by rewrite IH.
  - destruct (Js.split c s) as [|piece pieces] eqn:Hsplit.
    + by apply split_nonempty in Hsplit.
    + by rewrite join_push, IH.
Qed.

Lemma split_pieces_clean (c : ascii) (s : string) :
  Forall (fun piece => occurs c piece = false) (Js.split c s).
Proof.
  induction s as [|a s IH]; simpl; [by repeat constructor|].
  destruct (Ascii.eqb a c) eqn:Ha; [by constructor|].
  destruct (Js.split c s) as [|piece pieces]; [by repeat constructor; simpl; rewrite Ha|].
  inversion IH as [|? ? Hpiece Hpieces]; subst.
  constructor; [|done]. simpl. by rewrite Ha.
Qed.

(** X9.  The chat view shows a message as the blocks
    [content.split ('\n')]: there is always at least one block, no block
    contains a line break, and the blocks joined by line breaks are the
    content of the message, so no character of it is lost or added. *)
Theorem contentLines_round_trip (message : Message) :
  contentLines message <> []
  /\ Forall (fun line => occurs newline line = false) (contentLines message)
  /\ Js.join (String newline EmptyString) (contentLines message) = content message.
Proof.
  unfold contentLines. split; [apply split_nonempty|].
  split; [apply split_pieces_clean|apply join_split].
Qed.

End LinesFacts.

(** ** Reports page *)

Section ReportsPageFacts.

Import Reports ReportsPage.

Variable toLocaleDateString : string -> string.

Lemma filter_map_commute {A B : Type} (f : A -> B) (p : B -> bool) (l : list A) :
  List.filter p (map f l) = map f (List.filter (fun x => p (f x)) l).
Proof.
  induction l as [|x l IH]; simpl; [done|].
  destruct (p (f x)); simpl; by rewrite IH.
Qed.

Lemma filter_filter {A : Type} (p q : A -> bool) (l : list A) :
  List.filter q (List.filter p l) = List.filter (fun x => p x && q x) l.
Proof.
  induction l as [|x l IH]; simpl; [done|].
  destruct (p x); simpl; [|done]. destruct (q x); simpl; by rewrite IH.
Qed.

Lemma filter_true {A : Type} (l : list A) : List.filter (fun _ => true) l = l.
Proof. induction l as [|x l IH]; simpl; [done|]. by rewrite IH. Qed.

Lemma level_text_converted (chosen : string) (report : ApiReport) :
  String.eqb chosen "All" = false ->
  String.eqb (level_text (level (Reports.impact (convertReport toLocaleDateString report))))
             chosen
  = impact_passes chosen report.
Proof.
  intros Hall. unfold impact_passes, convertReport. rewrite Hall.
  cbn [Reports.impact level].
  destruct (Js.gt_zero (report_alerts report)); cbn [level_text negb].
  - rewrite (String.eqb_sym "High"). destruct (String.eqb_spec chosen "High") as [->|_]; [done|].
    by destruct (String.eqb chosen "Medium").
  - rewrite (String.eqb_sym "Medium").
    destruct (String.eqb_spec chosen "High") as [->|_]; [done|].
    by destruct (String.eqb chosen "Medium").
Qed.

Lemma applyFilters_converted (filters : ReportFilters) (reports : list ApiReport) :
  applyFilters filters (convertedReports toLocaleDateString reports)
  = convertedReports toLocaleDateString
      (List.filter (fun r => category_passes (category filters) r
                             && impact_passes (impact filters) r)
                   reports).
Proof.
  unfold applyFilters, convertedReports.
  destruct (String.eqb (category filters) "All") eqn:Hcat;
    destruct (String.eqb (impact filters) "All") eqn:Himp; simpl.
  - rewrite <- (filter_true reports) at 1. f_equal. apply List.filter_ext.
    intros r. unfold category_passes, impact_passes. by rewrite Hcat, Himp.
  - rewrite filter_map_commute. f_equal. apply List.filter_ext.
    intros r. rewrite level_text_converted by done.
    unfold category_passes. by rewrite Hcat.
  - rewrite filter_map_commute. f_equal. apply List.filter_ext.
    intros r. unfold category_passes, impact_passes. rewrite Hcat, Himp. simpl.
    by rewrite andb_true_r.
  - rewrite !filter_map_commute, filter_filter. f_equal. apply List.filter_ext.
    intros r. rewrite level_text_converted by done.
    unfold category_passes. by rewrite Hcat.
Qed.

(** X10.  The reports the page shows after a successful load are the
    conversions, in the order of the server, of exactly the records that
    pass both filters, where the impact filter [High] passes the records
    with alerts, [Medium] those without, [All] every record, and any
    other value (such as [Low], which the filter bar offers) none; so
    with such a value the page shows no report.  After a failed load the
    page shows what it showed before. *)
Theorem fetchReports_filters (filters : ReportFilters) (reports : list ApiReport)
        (shown : list Report) (e : Api.Error) :
  fetchReports toLocaleDateString filters (inr (Some reports)) shown
  = convertedReports toLocaleDateString
      (List.filter (fun r => category_passes (category filters) r
                             && impact_passes (impact filters) r)
                   reports)
  /\ (impact filters <> "All" -> impact filters <> "High" ->
      impact filters <> "Medium" ->
      fetchReports toLocaleDateString filters (inr (Some reports)) shown = [])
  /\ fetchReports toLocaleDateString filters (inr None) shown = []
  /\ fetchReports toLocaleDateString filters (inl e) shown = shown.
Proof.
  assert (forall l, fetchReports toLocaleDateString filters (inr l) shown
                    = applyFilters filters
                        (convertedReports toLocaleDateString (default [] l))) as Hloaded
    by done.
  split; [apply applyFilters_converted|]. split; [|split; [|done]].
  - intros Hall Hhigh Hmedium. rewrite Hloaded. cbn [default].
    rewrite applyFilters_converted.
    replace (List.filter _ reports) with (@nil ApiReport); [done|].
    symmetry. induction reports as [|r rest IH]; simpl; [done|].
    unfold impact_passes at 1.
    destruct (String.eqb_spec (impact filters) "All"); [done|].
    destruct (String.eqb_spec (impact filters) "High"); [done|].
    destruct (String.eqb_spec (impact filters) "Medium"); [done|].
    by rewrite andb_false_r.
  - rewrite Hloaded. cbn [default]. by rewrite applyFilters_converted.
Qed.

(** X11.  The list page and the detail page name the category of a
    record alike, except when the joined domains are the empty text
    (an empty list of domains): there the list page shows the empty
    text and the detail page shows [Mixed]. *)
Theorem category_list_and_detail (report : ApiReport) :
  d_category (convertReportDetail toLocaleDateString report)
  = (if String.eqb (Reports.category (convertReport toLocaleDateString report)) EmptyString
     then "Mixed"
     else Reports.category (convertReport toLocaleDateString report))
  /\ (report_domains report = Some [] ->
      Reports.category (convertReport toLocaleDateString report) = EmptyString
      /\ d_category (convertReportDetail toLocaleDateString report) = "Mixed").
Proof.
  simpl. unfold joined_domains.
  destruct (report_domains report) as [domains|]; simpl; [|done].
  split; [done|]. by intros [= ->].
Qed.

(** X12.  On the detail page, a record whose number of tips is not
    negative has a score of at least one when its impact is High, and
    impact Medium when its score is zero or less. *)
Theorem detail_score_and_level (report : ApiReport)
        (Hdomain : 0 <= default 0 (report_tips report)) :
  let shown := d_impact (convertReportDetail toLocaleDateString report) in
  (d_level shown = High -> 1 <= score shown)
  /\ (score shown <= 0 -> d_level shown = Medium).
Proof.
  simpl. unfold Js.add, Js.gt_zero.
  destruct (report_alerts report) as [alerts|]; simpl.
  - destruct (Z.ltb_spec 0 alerts); repeat split; try done; lia.
  - repeat split; done.
Qed.

End ReportsPageFacts.

(** ** The query of the address *)

Section QueryFacts.

Import Reports ReportsPage.

Variable toString : Z -> string.
Variable Number : string -> option Z.

Lemma textParam_gives (key fallback value : string) (query : list (string * string)) :
  Api.param key query = Some value -> value <> EmptyString ->
  textParam key fallback query = value.
Proof.
  intros Hparam Hvalue. unfold textParam. rewrite Hparam.
  by destruct (String.eqb_spec value EmptyString).
Qed.

Lemma numberParam_gives (key : string) (fallback n : Z) (text : string)
      (query : list (string * string)) :
  Api.param key query = Some text -> Number text = Some n -> n <> 0 ->
  numberParam Number key fallback query = n.
Proof.
  intros Hparam Hnumber Hn. unfold numberParam. rewrite Hparam, Hnumber.
  by destruct (Z.eqb_spec n 0).
Qed.

(** X13.  The page state survives the trip through the address: the
    query written for filters, page and page size, which leaves out
    every value that equals its default, is read back as the same
    filters, page and page size.  This needs that no filter is the
    empty text, that page and page size are not zero (an empty text and
    a zero are read as the default), and that [Number] reads back what
    [toString] writes. *)
Theorem query_round_trip (filters : ReportFilters) (page pageSize : Z)
        (Hnumber : forall n, Number (toString n) = Some n)
        (Hdate : dateRange filters <> EmptyString)
        (Hcategory : category filters <> EmptyString)
        (Himpact : impact filters <> EmptyString)
        (Hpage : page <> 0) (Hsize : pageSize <> 0) :
  let query := buildQuery toString filters page pageSize in
  readFilters query = filters
  /\ readPage Number query = page
  /\ readPageSize Number query = pageSize.
Proof.
  intros query. subst query. unfold buildQuery, readFilters, readPage, readPageSize.
  destruct filters as [date cat imp]. simpl in *.
  destruct (String.eqb_spec date "Last 7d") as [->|Hd];
    destruct (String.eqb_spec cat "All") as [->|Hc];
    destruct (String.eqb_spec imp "All") as [->|Hi];
    destruct (Z.eqb_spec page 1) as [->|Hp];
    destruct (Z.eqb_spec pageSize 10) as [->|Hs];
    cbn [negb ReportsPage.set String.eqb Ascii.eqb Bool.eqb List.filter fst];
    (split; [f_equal|split]);
    first [ reflexivity
          | by apply textParam_gives
          | by eapply numberParam_gives ].
Qed.

End QueryFacts.

(** ** Footer of the reports table *)

Section FooterFacts.

Import Reports ReportsPage.

Lemma paginatedReports_nonempty (reports : list Report) (page pageSize : Z) :
  1 <= page -> 1 <= pageSize ->
  (paginatedReports reports page pageSize <> []
   <-> (page - 1) * pageSize < Z.of_nat (length reports)).
Proof.
  intros Hp Hs. rewrite paginatedReports_take_drop by done.
  rewrite <- length_zero_iff_nil, length_take, length_drop.
  assert (0 <= (page - 1) * pageSize) by nia. lia.
Qed.

(** X14.  On every page from 1 to [totalPages] the table has rows; the
    "Next page" button is enabled exactly when the next page has rows,
    which is exactly when the page is not the last one; and the
    "Previous page" button is enabled exactly when the page is not the
    first one. *)
Theorem footer_buttons (reports : list Report) (page pageSize total : Z)
        (Hsize : 1 <= pageSize) (Hpage : 1 <= page)
        (Htotal : totalPages reports pageSize = Js.Int total)
        (Hlast : page <= total) :
  paginatedReports reports page pageSize <> []
  /\ (nextDisabled reports page pageSize = false
      <-> paginatedReports reports (page + 1) pageSize <> [])
  /\ (nextDisabled reports page pageSize = false <-> page < total)
  /\ (previousDisabled page = false <-> 1 < page).
Proof.
  destruct (ceil_div_spec (Z.of_nat (length reports)) pageSize)
    as (n & Hn & Hn0 & Hbounds); [lia|done|].
  unfold totalPages in Htotal. rewrite Hn in Htotal. injection Htotal as ->.
  unfold nextDisabled, totalPages, previousDisabled. rewrite Hn. simpl.
  rewrite !paginatedReports_nonempty by lia.
  split; [nia|]. split; [|split].
  - destruct (Z.eqb_spec page total); split; try done; nia.
  - destruct (Z.eqb_spec page total); split; try done; lia.
  - destruct (Z.eqb_spec page 1); split; try done; lia.
Qed.

End FooterFacts.

(** ** The calls of the API client *)

Section ApiCallsFacts.

Import Api ApiCalls.

Variable encodeURIComponent : string -> string.

Lemma call_inr (fetch : Request -> Response) (request : Request) (value : json) :
  call fetch request = inr value ->
  ok (fetch request) = true /\ parsed (fetch request) = Some value.
Proof.
  unfold call. destruct (ok (fetch request)); simpl.
  - destruct (parsed _); [|done]. by intros [= ->].
  - destruct (default _ _); try done;
      destruct (get "detail" _) as [detail|]; [destruct (truthy detail)|]; done.
Qed.

(** X15.  Every call of the API client treats the answer of the server
    in the same way, whatever the request ([runPipeline] is the shared
    part at its request, as are [getAllReports] and [getReportDetail]):
    a value is returned only for an ok answer and is then the parsed
    body; an answer that is not ok and whose body is an object with a
    truthy [detail] is rejected with that detail; and an answer that is
    not ok and has no JSON body is rejected with its status.
    [getUserReports] moreover never returns a falsy value: without a
    truthy [reports] field it returns the empty array. *)
Theorem api_calls_reject_failed_answers
        (fetch : Request -> Response) (request : Request) (userEmail : string) :
  (forall value, call fetch request = inr value ->
                 ok (fetch request) = true /\ parsed (fetch request) = Some value)
  /\ (forall fields detail,
         ok (fetch request) = false ->
         parsed (fetch request) = Some (JObject fields) ->
         assoc "detail" fields = Some detail -> truthy detail = true ->
         call fetch request = inl (Detail detail))
  /\ (ok (fetch request) = false -> parsed (fetch request) = None ->
      call fetch request
      = inl (HttpError ("HTTP error! status: " ++ pretty (http_status (fetch request)))%string))
  /\ runPipeline fetch userEmail = call fetch (runPipeline_request userEmail)
  /\ (forall value,
         getUserReports encodeURIComponent fetch userEmail = inr value ->
         truthy value = true
         /\ ok (fetch (getUserReports_request encodeURIComponent userEmail)) = true)
  /\ (forall fields,
         ok (fetch (getUserReports_request encodeURIComponent userEmail)) = true ->
         parsed (fetch (getUserReports_request encodeURIComponent userEmail))
         = Some (JObject fields) ->
         assoc "reports" fields = None ->
         getUserReports encodeURIComponent fetch userEmail = inr (JArray [])).
Proof.
  split; [apply call_inr|]. split; [|split; [|split; [done|split]]].
  - intros fields detail Hok Hbody Hdetail Htruthy. unfold call.
    rewrite Hok, Hbody. simpl. by rewrite Hdetail, Htruthy.
  - intros Hok Hbody. unfold call. by rewrite Hok, Hbody.
  - intros value. unfold getUserReports.
    destruct (call fetch _) as [e|data] eqn:Hcall; [done|].
    apply call_inr in Hcall as [Hok _].
    destruct data; try (intros [= <-]; done);
      (destruct (get "reports" _) as [reports|];
       [destruct (truthy reports) eqn:Ht|]; by intros [= <-]).
  - intros fields Hok Hbody Hnone. unfold getUserReports, call.
    rewrite Hok, Hbody. simpl. by rewrite Hnone.
Qed.

End ApiCallsFacts.

(** ** Domain analysis panel *)

Section DomainSynthesisFacts.

Import DomainSynthesis.

Lemma or_else_nonempty (text : option string) (fallback : string) :
  fallback <> EmptyString -> or_else text fallback <> EmptyString.
Proof.
  intros Hfallback. unfold or_else. destruct text as [t|]; [|done].
  by destruct (String.eqb_spec t EmptyString).
Qed.

Lemma or_else_given (t fallback : string) :
  t <> EmptyString -> or_else (Some t) fallback = t.
Proof. intros Ht. unfold or_else. by destruct (String.eqb_spec t EmptyString). Qed.

Lemma or_else_missing (text : option string) (fallback : string) :
  text = None \/ text = Some EmptyString -> or_else text fallback = fallback.
Proof. by intros [-> | ->]. Qed.

(** X16.  The panel always has the three tabs [prawo], [polityka] and
    [financial], and none of them is ever empty.  When the page passes
    a synthesis with at least one key, a domain whose text is present
    and not empty is shown with exactly that text, and a domain whose
    text is missing or empty with the short fallback of its tab; when
    the page passes nothing or the empty object, every tab shows the
    long placeholder of its domain. *)
Theorem tabs_never_empty (domainSynthesis : option (gmap string string)) :
  let shown := tabs (loadDomainSynthesis domainSynthesis) in
  map value shown = ["prawo"; "polityka"; "financial"]
  /\ Forall (fun tab => content tab <> EmptyString) shown
  /\ (forall data, domainSynthesis = Some data -> data <> ∅ ->
        Forall (fun tab => forall t, data !! value tab = Some t -> t <> EmptyString ->
                                     content tab = t) shown)
  /\ (forall data, domainSynthesis = Some data -> data <> ∅ ->
        Forall (fun tab =>
                  data !! value tab = None \/ data !! value tab = Some EmptyString ->
                  In (value tab, content tab)
                     [ ("prawo", "No legal analysis available");
                       ("polityka", "No political analysis available");
                       ("financial", "No financial analysis available") ])
               shown)
  /\ (domainSynthesis = None \/ domainSynthesis = Some ∅ ->
      Forall (fun tab => placeholder !! value tab = Some (content tab)) shown
      /\ map (fun tab => (value tab, content tab)) shown
         = [ ("prawo",
              "No legal domain analysis available - the domain synthesis files could not be loaded from storage.");
             ("polityka",
              "No political domain analysis available - the domain synthesis files could not be loaded from storage.");
             ("financial",
              "No financial domain analysis available - the domain synthesis files could not be loaded from storage.") ]).
Proof.
  intros shown. subst shown. split; [done|]. split; [|split; [|split]].
  - unfold tabs. repeat constructor; simpl; by apply or_else_nonempty.
  - intros data -> Hne. unfold loadDomainSynthesis.
    rewrite decide_False by done.
    unfold tabs. repeat constructor; simpl; intros t -> Ht; by apply or_else_given.
  - intros data -> Hne. unfold loadDomainSynthesis.
    rewrite decide_False by done.
    unfold tabs.
    constructor; [|constructor; [|constructor; [|constructor]]];
      cbn [value content]; intros Hmissing; rewrite (or_else_missing _ _ Hmissing).
    + by left.
    + right. by left.
    + right. right. by left.
  - intros Hnothing.
    assert (loadDomainSynthesis domainSynthesis = placeholder) as ->.
    { unfold loadDomainSynthesis.
      destruct Hnothing as [->| ->]; [done|]. by rewrite decide_True. }
    split; [|by vm_compute].
    unfold tabs. repeat constructor; simpl; by vm_compute.
Qed.

End DomainSynthesisFacts.

(** ** Report chat panel *)

Section ReportChatFacts.

Import ReportChat.

Variable trim : string -> string.

Lemma chatKey_inj (a b : string) : chatKey a = chatKey b -> a = b.
Proof. unfold chatKey. apply (inj (String.append "chat_")). Qed.

(** X17.  A send from the report chat with a blank input, or while an
    answer is pending, changes neither the panel nor the storage.  Any
    other send appends the trimmed question and the answer to the
    messages of the panel and stores exactly the messages the panel
    then shows under the key of the report, so that loading the chat of
    that report again gives the panel's messages back, while the stored
    chat of every other report is untouched. *)
Theorem chat_is_stored_per_report
        (now later : Z) (stamp stamp' report : string)
        (panel : Panel) (storage : gmap string (list ChatMessage)) :
  let after := handleSend trim now later stamp stamp' report panel storage in
  (trim (input panel) = EmptyString \/ isLoading panel = true ->
   after = (panel, storage))
  /\ (trim (input panel) <> EmptyString -> isLoading panel = false ->
      (exists question answer,
          messages after.1 = (messages panel ++ [question; answer])%list
          /\ content question = trim (input panel)
          /\ role question = chat_user /\ role answer = chat_assistant
          /\ reportId question = report /\ reportId answer = report)
      /\ input after.1 = EmptyString
      /\ isLoading after.1 = false
      /\ messages (loadMessages after.2 report after.1) = messages after.1
      /\ (forall other p, other <> report ->
                          loadMessages after.2 other p = loadMessages storage other p)).
Proof.
  intros after. subst after. unfold handleSend. split.
  - intros [->| ->]; [done|]. by rewrite orb_true_r.
  - intros Hinput Hidle. rewrite Hidle.
    destruct (String.eqb_spec (trim (input panel)) EmptyString) as [|_]; [done|].
    simpl. split; [|split; [done|split; [done|split]]].
    + eexists _, _. split; [by rewrite <- app_assoc|]. done.
    + unfold loadMessages. simpl. by rewrite lookup_insert_eq.
    + intros other p Hother. unfold loadMessages.
      rewrite lookup_insert_ne; [done|]. by intros ?%chatKey_inj.
Qed.

End ReportChatFacts.

(** ** Report settings *)

Section UserSettingsFacts.

Import UserSettings AgentActions.

Lemma slice_to_append (s t : string) :
  slice_to (String.length s) (s ++ t)%string = s.
Proof.
  induction s as [|a s IH]; [by destruct t|].
  rewrite append_cons. simpl. by rewrite IH.
Qed.

(** X18.  The report time makes the round trip between the form and the
    server: a form time of five characters ([HH:MM]) that is saved and
    loaded again is the same form time, and a server time that ends in
    zero seconds ([HH:MM:00]) that is loaded and saved again is the same
    server time; for any other seconds the saved time has them replaced
    by [00]. *)
Theorem report_time_round_trip (hhmm seconds : string)
        (Hlength : String.length hhmm = 5%nat) :
  formTime (savedTime hhmm) = hhmm
  /\ savedTime (formTime (hhmm ++ ":00")) = (hhmm ++ ":00")%string
  /\ savedTime (formTime (hhmm ++ ":" ++ seconds)) = (hhmm ++ ":00")%string.
Proof.
  unfold formTime, savedTime. rewrite <- Hlength, !slice_to_append. done.
Qed.

End UserSettingsFacts.

(** ** The sign-in form *)

Section AuthFacts.

Import Auth.

Local Open Scope list_scope.

Lemma matches_nil_nullable (r : regex) : matches r [] <-> nullable r = true.
Proof.
  split.
  - intros H. remember [] as t eqn:Ht.
    induction H; cbn [nullable]; try done.
    + apply List.app_eq_nil in Ht as [-> ->].
      by rewrite IHmatches1, IHmatches2.
    + by rewrite IHmatches.
    + by rewrite IHmatches, orb_true_r.
  - induction r; cbn [nullable]; intros H; try discriminate.
    + constructor.
    + apply andb_prop in H as [Hr Hs].
      apply (matches_seq _ _ [] []); auto.
    + apply orb_prop in H as [Hr | Hs].
      * apply matches_alt_l; auto.
      * apply matches_alt_r; auto.
    + constructor.
Qed.

Lemma matches_star_inv (r : regex) (c : N) (t : text) :
  matches (Star r) (c :: t) ->
  exists u v, t = u ++ v /\ matches r (c :: u) /\ matches (Star r) v.
Proof.
  intros H. remember (Star r) as s eqn:Hs. remember (c :: t) as w eqn:Hw.
  revert Hs Hw.
  induction H; intros Hs Hw; try discriminate.
  injection Hs as ->.
  destruct u as [|c' u].
  - apply IHmatches2; done.
  - cbn [app] in Hw. injection Hw as -> <-. by exists u, v.
Qed.

Lemma matches_deriv (r : regex) : forall (c : N) (t : text),
  matches (deriv c r) t <-> matches r (c :: t).
Proof.
  induction r as [| |p|r IHr s IHs|r IHr s IHs|r IHr]; intros c t; cbn [deriv].
  - split; inversion 1.
  - split; inversion 1.
  - destruct (p c) eqn:Hp; split; intros H; inversion H; subst.
    + by constructor.
    + constructor.
    + congruence.
  - assert (matches (Seq (deriv c r) s) t <->
            exists u v, t = u ++ v /\ matches r (c :: u) /\ matches s v) as Hfirst.
    { split.
      - intros H. inversion H; subst. exists u, v. by rewrite <- IHr.
      - intros (u & v & -> & Hu & Hv). constructor; [by apply IHr | done]. }
    split.
    + intros H.
      assert (matches (Seq (deriv c r) s) t \/
              (nullable r = true /\ matches (deriv c s) t)) as [Hl | [Hn Hr]].
      { destruct (nullable r); [|by left].
        inversion H; subst; [by left | by right]. }
      * apply Hfirst in Hl as (u & v & -> & Hu & Hv).
        by apply (matches_seq r s (c :: u) v).
      * apply (matches_seq r s [] (c :: t)).
        -- by apply matches_nil_nullable.
        -- by apply IHs.
    + intros H. inversion H as [| |r' s' u v Hu Hv| | | |]; subst.
      destruct u as [|c' u].
      * cbn [app] in *. subst v.
        apply matches_nil_nullable in Hu. rewrite Hu.
        apply matches_alt_r. by apply IHs.
      * match goal with E : (_ :: _) ++ _ = _ :: _ |- _ =>
          cbn [app] in E; injection E as -> <- end.
        assert (matches (Seq (deriv c r) s) (u ++ v)) as Hl.
        { apply Hfirst. by exists u, v. }
        destruct (nullable r); [by apply matches_alt_l | done].
  - split; intros H; inversion H; subst.
    + apply matches_alt_l. by apply IHr.
    + apply matches_alt_r. by apply IHs.
    + apply matches_alt_l. by apply IHr.
    + apply matches_alt_r. by apply IHs.
  - split.
    + intros H. inversion H; subst.
      apply (matches_star_cons r (c :: u) v); [by apply IHr | done].
    + intros H. apply matches_star_inv in H as (u & v & -> & Hu & Hv).
      constructor; [by apply IHr | done].
Qed.

(** The derivative matcher decides the words of the expression. *)
Lemma test_matches (t : text) : forall r : regex,
  test r t = true <-> matches r t.
Proof.
  induction t as [|c t IH]; intros r; cbn [test].
  - symmetry. apply matches_nil_nullable.
  - rewrite IH. apply matches_deriv.
Qed.

Lemma matches_class_inv (p : N -> bool) (t : text) :
  matches (Class p) t <-> exists c, t = [c] /\ p c = true.
Proof.
  split.
  - inversion 1; subst. by eexists.
  - intros (c & -> & Hc). by constructor.
Qed.

Lemma matches_seq_inv (r s : regex) (t : text) :
  matches (Seq r s) t <-> exists u v, t = u ++ v /\ matches r u /\ matches s v.
Proof.
  split.
  - inversion 1; subst. by eexists _, _.
  - intros (u & v & -> & Hu & Hv). by constructor.
Qed.

Lemma matches_star_class (p : N -> bool) (t : text) :
  matches (Star (Class p)) t <-> Forall (fun c => p c = true) t.
Proof.
  split.
  - intros H. remember (Star (Class p)) as s eqn:Hs.
    induction H; try discriminate.
    + constructor.
    + injection Hs as ->. inversion H; subst.
      constructor; [done | by apply IHmatches2].
  - induction 1 as [|c t Hc _ IH].
    + constructor.
    + apply (matches_star_cons _ [c] t); [by constructor | done].
Qed.

Lemma matches_plus_class (p : N -> bool) (t : text) :
  matches (Plus (Class p)) t <-> t <> [] /\ Forall (fun c => p c = true) t.
Proof.
  unfold Plus. rewrite matches_seq_inv. split.
  - intros (u & v & -> & Hu & Hv).
    apply matches_class_inv in Hu as (c & -> & Hc).
    apply matches_star_class in Hv.
    split; [done | by constructor].
  - intros [Hne Hall]. destruct Hall as [|c t Hc Hall]; [done|].
    exists [c], t. split; [done|]. split.
    + by constructor.
    + by apply matches_star_class.
Qed.

Lemma plain_spec (c : N) :
  plain c = true <-> is_space c = false /\ c <> at_sign.
Proof.
  unfold plain. rewrite negb_true_iff, orb_false_iff, N.eqb_neq. done.
Qed.

Lemma emailRegex_matches (email : text) :
  matches emailRegex email <->
  exists l a b : text,
    email = l ++ at_sign :: a ++ full_stop :: b
    /\ l <> [] /\ a <> [] /\ b <> []
    /\ Forall (fun c => plain c = true) (l ++ a ++ b).
Proof.
  unfold emailRegex.
  split.
  - intros H.
    apply matches_seq_inv in H as (l & t1 & -> & Hl & H).
    apply matches_seq_inv in H as (x & t2 & -> & Hx & H).
    apply matches_seq_inv in H as (a & t3 & -> & Ha & H).
    apply matches_seq_inv in H as (y & b & -> & Hy & Hb).
    apply matches_class_inv in Hx as (cx & -> & Hx%N.eqb_eq).
    apply matches_class_inv in Hy as (cy & -> & Hy%N.eqb_eq).
    apply matches_plus_class in Hl as [Hl Hl'].
    apply matches_plus_class in Ha as [Ha Ha'].
    apply matches_plus_class in Hb as [Hb Hb'].
    subst cx cy. exists l, a, b.
    repeat split; try done.
    by rewrite !Forall_app.
  - intros (l & a & b & -> & Hl & Ha & Hb & Hall).
    rewrite !Forall_app in Hall. destruct Hall as (Hl' & Ha' & Hb').
    apply (matches_seq _ _ l (at_sign :: a ++ full_stop :: b)).
    { by apply matches_plus_class. }
    apply (matches_seq _ _ [at_sign] (a ++ full_stop :: b)).
    { constructor. apply N.eqb_refl. }
    apply (matches_seq _ _ a (full_stop :: b)).
    { by apply matches_plus_class. }
    apply (matches_seq _ _ [full_stop] b).
    { constructor. apply N.eqb_refl. }
    by apply matches_plus_class.
Qed.

(** X19.  The pattern of the sign-in and registration forms accepts
    exactly the texts made of a local part, one at sign, a middle part, a
    full stop and a last part, where the three parts are not empty and
    hold neither white space nor an at sign (the middle and last parts
    are the split of the domain at any one of its full stops). *)
Theorem email_pattern_accepts (email : text) :
  test emailRegex email = true <->
  exists l a b : text,
    email = l ++ at_sign :: a ++ full_stop :: b
    /\ l <> [] /\ a <> [] /\ b <> []
    /\ Forall (fun c => is_space c = false /\ c <> at_sign) (l ++ a ++ b).
Proof.
  rewrite test_matches, emailRegex_matches.
  do 3 (apply exist_proper; intros ?).
  do 4 (apply and_iff_compat_l).
  apply Forall_iff, plain_spec.
Qed.

Lemma trimStart_spec (t : text) :
  trimStart t = [] <-> Forall (fun c => is_space c = true) t.
Proof.
  induction t as [|c t IH]; cbn [trimStart].
  - split; [constructor | done].
  - destruct (is_space c) eqn:Hc.
    + rewrite IH. split.
      * by constructor.
      * by inversion 1.
    + split; [done|]. inversion 1; congruence.
Qed.

Lemma trimStart_fixed (t : text) :
  Forall (fun c => is_space c = false) t -> trimStart t = t.
Proof. destruct 1 as [|c t Hc _]; cbn [trimStart]; [done | by rewrite Hc]. Qed.

Lemma trim_fixed (t : text) :
  Forall (fun c => is_space c = false) t -> trim t = t.
Proof.
  intros Hall. unfold trim. rewrite (trimStart_fixed t Hall).
  rewrite trimStart_fixed; [apply rev_involutive|].
  apply Forall_forall. intros c Hc%list_elem_of_In%List.in_rev.
  rewrite Forall_forall in Hall. apply Hall. by apply list_elem_of_In.
Qed.

Lemma trim_empty (t : text) :
  is_empty (trim t) = true <-> Forall (fun c => is_space c = true) t.
Proof.
  unfold trim. rewrite <- trimStart_spec.
  destruct (trimStart t) as [|c u] eqn:Ht; [done|].
  split; [|done]. intros Hempty. exfalso.
  assert (is_space c = false) as Hc.
  { clear Hempty. induction t as [|d t IH]; cbn [trimStart] in Ht; [done|].
    destruct (is_space d) eqn:Hd; [by apply IH|]. congruence. }
  destruct (trimStart (rev (c :: u))) as [|d w] eqn:Hrev;
    [|cbn [rev] in Hempty; by destruct (rev w)].
  apply trimStart_spec in Hrev. rewrite Forall_forall in Hrev.
  assert (is_space c = true); [|congruence].
  apply Hrev, list_elem_of_In, List.in_rev. rewrite rev_involutive. by left.
Qed.

Lemma count_plain (t : text) :
  Forall (fun c => plain c = true) t -> count_occ N.eq_dec t at_sign = 0%nat.
Proof.
  intros Hall. apply count_occ_not_In. intros Hin%list_elem_of_In.
  rewrite Forall_forall in Hall. apply Hall, plain_spec in Hin. by destruct Hin.
Qed.

Lemma some_not_space (t : text) :
  ~ Forall (fun c => is_space c = true) t <-> Exists (fun c => is_space c = false) t.
Proof.
  induction t as [|c t IH].
  - split; [intros H; destruct H; constructor | inversion 1].
  - rewrite Forall_cons, Exists_cons, <- IH.
    destruct (is_space c); split; try tauto; intros [?|?] [? ?]; done.
Qed.

(** X20.  [validateForm] lets the form through exactly when the name
    holds something besides white space and the email has the shape of
    the pattern.  An email it lets through has exactly one at sign, no
    white space anywhere, so that trimming would not change it, and the
    form then has no error message; an email of white space only is
    reported as missing, never as invalid. *)
Theorem validateForm_accepts (name email : text) :
  (validateForm name email = true <->
   Exists (fun c => is_space c = false) name /\ test emailRegex email = true)
  /\ (validateForm name email = true ->
      count_occ N.eq_dec email at_sign = 1%nat
      /\ Forall (fun c => is_space c = false) email
      /\ trim email = email
      /\ formErrors name email = {| name_error := None; email_error := None |})
  /\ (Forall (fun c => is_space c = true) email ->
      email_error (formErrors name email) = Some "Email is required").
Proof.
  assert (is_empty (trim name) = false <->
          Exists (fun c => is_space c = false) name) as Hname.
  { rewrite <- not_true_iff_false, trim_empty. apply some_not_space. }
  assert (test emailRegex email = true ->
          Forall (fun c => is_space c = false) email
          /\ count_occ N.eq_dec email at_sign = 1%nat) as Hshape.
  { intros (l & a & b & -> & _ & _ & _ & Hall)%test_matches%emailRegex_matches.
    rewrite !Forall_app in Hall. destruct Hall as (Hl & Ha & Hb). split.
    - rewrite Forall_app, Forall_cons, Forall_app, Forall_cons.
      repeat split; try done;
        eapply Forall_impl; eauto; intros c Hc%plain_spec; by destruct Hc.
    - rewrite count_occ_app, count_occ_cons_eq by done.
      rewrite count_occ_app, count_occ_cons_neq by done.
      rewrite !count_plain by done. done. }
  assert (test emailRegex email = true -> is_empty (trim email) = false) as Hfilled.
  { intros Hvalid. destruct (Hshape Hvalid) as [Hspace _].
    rewrite trim_fixed by done.
    apply test_matches, emailRegex_matches in Hvalid as (l & a & b & -> & Hl & _).
    by destruct l. }
  assert (validateForm name email = true <->
          is_empty (trim name) = false /\ test emailRegex email = true) as Hvalid.
  { unfold validateForm, formErrors; cbn [name_error email_error].
    destruct (is_empty (trim name)) eqn:Hn.
    - split; [done | by intros [? _]].
    - destruct (test emailRegex email) eqn:Ht.
      + rewrite Hfilled by done. done.
      + destruct (is_empty (trim email)); cbn [negb]; split; try done; by intros [_ ?]. }
  split; [by rewrite Hvalid, Hname|]. split.
  - intros [Hn Ht]%Hvalid. destruct (Hshape Ht) as [Hspace Hcount].
    repeat split; try done.
    + by apply trim_fixed.
    + unfold formErrors. by rewrite Hn, Ht, (Hfilled Ht).
  - intros Hblank%trim_empty. unfold formErrors; cbn [email_error].
    by rewrite Hblank.
Qed.

End AuthFacts.

(** ** Instances *)

Section FurtherWitnesses.

Import AgentStore AgentActions.

Lemma current_thread_stays_listed_witness :
  listed Samples.store
  /\ listed (createNewThread 2 Samples.store)
  /\ listed (selectThread "thread_1" Samples.store)
  /\ listed (deleteThread "thread_1" Samples.store)
  /\ listed (updateThreadTitle "thread_1" "Roaming rules" Samples.store)
  /\ listed (clearError Samples.store)
  /\ listed (sendMessage 2 3 (ReplyRejected "Failed to fetch") "And prices?" Samples.store)
  /\ listed (sendStreamingMessage 2 (Rejected "Failed to fetch") "And prices?"
                                  Samples.store).1.
Proof.
  assert (listed Samples.store) as Hlisted.
  { exists Samples.thread. split; [by left | reflexivity]. }
  split; [exact Hlisted|].
  apply (current_thread_stays_listed Samples.store 2 3 "thread_1" "Roaming rules"
           "And prices?" (ReplyRejected "Failed to fetch") (Rejected "Failed to fetch")
           Hlisted).
Defined.

Lemma sendMessage_failure_keeps_question_witness :
  failure_message (Reply false 500 (inl "Internal Server Error"))
  = Some "HTTP error! status: 500"
  /\ error (sendMessage 2 3 (Reply false 500 (inl "Internal Server Error"))
                        "And prices?" Samples.store)
     = Some "HTTP error! status: 500".
Proof.
  assert (failure_message (Reply false 500 (inl "Internal Server Error"))
          = Some "HTTP error! status: 500") as Hfailed by reflexivity.
  split; [exact Hfailed|].
  apply (sendMessage_failure_keeps_question 2 3 _ _ "And prices?" Samples.store Hfailed).
Defined.


Import Reports ReportsPage.

Lemma detail_score_and_level_witness :
  0 <= default 0 (report_tips Samples.apiReport)
  /\ (d_level (d_impact (convertReportDetail (fun date => date) Samples.apiReport)) = High
      -> 1 <= score (d_impact (convertReportDetail (fun date => date) Samples.apiReport))).
Proof.
  assert (0 <= default 0 (report_tips Samples.apiReport)) as Hdomain by (simpl; lia).
  split; [exact Hdomain|].
  apply (detail_score_and_level (fun date => date) Samples.apiReport Hdomain).
Defined.

Lemma Number_toString (n : Z) : Samples.Number (Samples.toString n) = Some n.
Proof.
  unfold Samples.Number, Samples.toString.
  rewrite DecimalString.NilZero.isi.
  - simpl. by rewrite DecimalZ.of_to.
  - destruct n; simpl; try discriminate.
    intros [=H]. by apply DecimalPos.Unsigned.to_uint_nonnil in H.
  - destruct n; simpl; try discriminate.
    intros [=H]. by apply DecimalPos.Unsigned.to_uint_nonnil in H.
Qed.

Lemma query_round_trip_witness :
  (forall n, Samples.Number (Samples.toString n) = Some n)
  /\ readFilters (buildQuery Samples.toString Samples.filters 3 25) = Samples.filters
  /\ readPage Samples.Number (buildQuery Samples.toString Samples.filters 3 25) = 3
  /\ readPageSize Samples.Number (buildQuery Samples.toString Samples.filters 3 25) = 25.
Proof.
  split; [exact Number_toString|].
  apply (query_round_trip Samples.toString Samples.Number Samples.filters 3 25
           Number_toString); discriminate.
Defined.

Lemma footer_buttons_witness :
  1 <= 2 /\ 1 <= 1 /\ totalPages Samples.rows 2 = Js.Int 2 /\ 1 <= 2
  /\ paginatedReports Samples.rows 1 2 <> []
  /\ (nextDisabled Samples.rows 1 2 = false
      <-> paginatedReports Samples.rows (1 + 1) 2 <> [])
  /\ (nextDisabled Samples.rows 1 2 = false <-> 1 < 2)
  /\ (previousDisabled 1 = false <-> 1 < 1).
Proof.
  split; [lia|]. split; [lia|]. split; [reflexivity|]. split; [lia|].
  apply (footer_buttons Samples.rows 1 2 2); first [lia | reflexivity].
Defined.

Import UserSettings.

Lemma report_time_round_trip_witness :
  String.length "09:30" = 5%nat
  /\ formTime (savedTime "09:30") = "09:30"
  /\ savedTime (formTime ("09:30" ++ ":00")) = ("09:30" ++ ":00")%string
  /\ savedTime (formTime ("09:30" ++ ":" ++ "45")) = ("09:30" ++ ":00")%string.
Proof.
  split; [reflexivity|].
  apply (report_time_round_trip "09:30" "45"). reflexivity.
Defined.

End FurtherWitnesses.
